(** * Feed ranking and strategy selection

    A shallow embedding of the two pieces of decision logic of the
    repository:

    - [supabase/migrations/0002_ranking_function.sql], the PL/pgSQL function
      [get_custom_ranked_feed] (module [Sql] below);
    - the [get-feed] edge function, a request handler that parses the page
      window, resolves the caller's preferences and dispatches to one of
      three strategies (module [Edge] below).

    Conventions of the embedding.
    - [numeric] values are exact rationals ([Q], compared with [==], which
      is how Postgres compares [1.0] and [1.00]); the rounding of a
      [numeric] division to its display scale and the special values
      [NaN] and [Infinity] are not represented.
    - [timestamptz] values are integers: microseconds since the epoch,
      the resolution of the type.
    - [uuid] values are natural numbers.
    - JavaScript numbers are exact rationals plus [NaN].
    - Built-ins of the platforms that are not part of the repository
      (the text-to-numeric cast, the URL parser, [fetch], the coercion of
      an arbitrary value to a property key) are parameters. *)

From Stdlib Require Import QArith ZArith Lia Lqa Ascii.
From Stdlib Require Qcanon.
From stdpp Require Import gmap strings list sorting pretty.

Local Open Scope Z_scope.

Abbreviation uuid := N (only parsing).
Abbreviation timestamptz := Z (only parsing).

(** ** JSON documents (jsonb columns, request bodies) *)

#[local] Set Warnings "-register-all".

Inductive json :=
| JNull
| JBool (b : bool)
| JNumber (q : Q)
| JString (s : string)
| JArray (items : list json)
| JObject (fields : list (string * json)).

(** Fields of a parsed object; the first binding of a key is the one found. *)
Fixpoint assoc {A} (key : string) (fields : list (string * A)) : option A :=
  match fields with
  | [] => None
  | (k, v) :: rest => if String.eqb k key then Some v else assoc key rest
  end.

(** [j -> key] on jsonb, [j[key]] on a parsed JavaScript value: absent
    unless [j] is an object that has the key. *)
Definition json_get (j : json) (key : string) : option json :=
  match j with
  | JObject fields => assoc key fields
  | _ => None
  end.

(** ** The relational store *)

Record post := {
  post_id : uuid;
  author_id : uuid;
  text_content : option string;
  created_at : timestamptz
}.

Record like_row := { like_user_id : uuid; like_post_id : uuid }.

Record comment_row := {
  comment_id : uuid;
  comment_post_id : uuid;
  comment_user_id : uuid;
  content : string
}.

Record follow_row := { follower_id : uuid; followed_id : uuid }.

Inductive media_type := photo | video.

Record media_row := {
  media_post_id : uuid;
  media_kind : media_type;
  storage_path : option string;
  mux_playback_id : option string;
  media_created_at : timestamptz
}.

(** [user_feed_preferences] has [user_id] as its primary key and a
    [preferences jsonb not null] column: a finite map from users to
    documents. *)
Record database := {
  posts : list post;
  likes : list like_row;
  comments : list comment_row;
  follows : list follow_row;
  media : list media_row;
  user_feed_preferences : gmap N json
}.

(** * The SQL function [get_custom_ranked_feed] *)

Module Sql.

Record weights := {
  like_weight : Q;
  comment_weight : Q;
  follower_weight : Q;
  recency_weight : Q
}.

(** The initial values of the four variables of the [declare] block. *)
Definition default_weights : weights :=
  {| like_weight := 1; comment_weight := 1 # 2;
     follower_weight := 1; recency_weight := 1 |}.

Inductive cast_result :=
| CastNull
| CastValue (q : Q)
| CastError.

Inductive sql_result (A : Type) :=
| SqlOk (rows : A)
| SqlError (condition : string).
Arguments SqlOk {A} rows.
Arguments SqlError {A} condition.

(** The columns of the [joined] common table expression. *)
Record joined_row := {
  base : post;
  like_count : Z;
  comment_count : Z;
  is_from_followed : bool;
  recency_score : Q;
  media_one : option media_row
}.

(** The columns of the result set: those of [joined] and [final_score]. *)
Record feed_row := {
  columns : joined_row;
  final_score : Q
}.

Section WithCast.

(** The input function of [numeric]: [Some q] for a text that denotes a
    number, [None] where the cast raises [invalid_text_representation]. *)
Variable numeric_in : string → option Q.

(** [(prefs ->> key)::numeric].  [->>] is NULL for an absent key, a JSON
    null, or a document that is not an object; a JSON number prints as the
    text of that same number; a string is handed to the cast as it is; the
    text of a boolean, an array or an object is not a number. *)
Definition text_field_as_numeric (prefs : json) (key : string) : cast_result :=
  match json_get prefs key with
  | None | Some JNull => CastNull
  | Some (JNumber q) => CastValue q
  | Some (JString s) =>
      match numeric_in s with
      | Some q => CastValue q
      | None => CastError
      end
  | Some (JBool _) | Some (JArray _) | Some (JObject _) => CastError
  end.

(** One block [begin w := coalesce((prefs ->> key)::numeric, w);
    exception when others then null; end;]. *)
Definition assign_weight (prefs : json) (key : string) (w : Q) : Q :=
  match text_field_as_numeric prefs key with
  | CastValue q => q
  | CastNull => w
  | CastError => w
  end.

(** Lines 36-53: [select preferences into prefs], then the four blocks
    under [if prefs is not null]. *)
Definition load_weights (db : database) (requesting_user_id : uuid) : weights :=
  match user_feed_preferences db !! requesting_user_id with
  | None => default_weights
  | Some prefs =>
      {| like_weight := assign_weight prefs "like_weight" (like_weight default_weights);
         comment_weight := assign_weight prefs "comment_weight" (comment_weight default_weights);
         follower_weight := assign_weight prefs "follower_weight" (follower_weight default_weights);
         recency_weight := assign_weight prefs "recency_weight" (recency_weight default_weights) |}
  end.

End WithCast.

(** [like_agg] joined on [post_id], with [coalesce(.., 0)]. *)
Definition count_likes (db : database) (p : uuid) : Z :=
  Z.of_nat (length (filter (λ l, like_post_id l = p) (likes db))).

Definition count_comments (db : database) (p : uuid) : Z :=
  Z.of_nat (length (filter (λ c, comment_post_id c = p) (comments db))).

(** [follow_flags]: an edge from the requester to the author exists. *)
Definition follows_author (db : database) (requesting_user_id author : uuid) : bool :=
  existsb (λ f, N.eqb (follower_id f) requesting_user_id && N.eqb (followed_id f) author)
          (follows db).

(** [media_one] at [rn = 1]: the attachment of the post that is first
    under [order by created_at desc]. *)
Definition pick_media (db : database) (p : uuid) : option media_row :=
  foldl (λ best m,
           if N.eqb (media_post_id m) p then
             match best with
             | None => Some m
             | Some b => if media_created_at b <? media_created_at m then Some m else Some b
             end
           else best)
        None (media db).

(** [extract(epoch from (now() - created_at)) / 3600.0]. *)
Definition hours_since_created (now created : timestamptz) : Q :=
  ((inject_Z (now - created) / 1000000) / 3600)%Q.

(** [1.0 / (1.0 + hours)]; a zero divisor raises [division_by_zero]. *)
Definition recency (now created : timestamptz) : option Q :=
  let d := (1 + hours_since_created now created)%Q in
  if Qeq_bool d 0 then None else Some (1 / d)%Q.

(** One row of [joined].  [posts.id] is the primary key and each joined
    relation has at most one row per post, so every post yields one row. *)
Definition join_post (db : database) (now : timestamptz) (requesting_user_id : uuid)
    (b : post) : option joined_row :=
  r ← recency now (created_at b);
  Some {| base := b;
          like_count := count_likes db (post_id b);
          comment_count := count_comments db (post_id b);
          is_from_followed := follows_author db requesting_user_id (author_id b);
          recency_score := r;
          media_one := pick_media db (post_id b) |}.

Definition joined (db : database) (now : timestamptz) (requesting_user_id : uuid)
  : option (list joined_row) :=
  mapM (join_post db now requesting_user_id) (posts db).

(** Lines 119-122. *)
Definition score (w : weights) (j : joined_row) : Q :=
  (like_weight w * inject_Z (like_count j)
   + comment_weight w * inject_Z (comment_count j)
   + follower_weight w * (if is_from_followed j then 1 else 0)
   + recency_weight w * recency_score j)%Q.

Definition select_row (w : weights) (j : joined_row) : feed_row :=
  {| columns := j; final_score := score w j |}.

(** [order by final_score desc nulls last, j.created_at desc]: [a] may
    stand before [b]. No column of the key is NULL here. *)
Definition ranks_before_b (a b : feed_row) : bool :=
  match (final_score b ?= final_score a)%Q with
  | Lt => true
  | Eq => created_at (base (columns b)) <=? created_at (base (columns a))
  | Gt => false
  end.

Definition ranks_before (a b : feed_row) : Prop := ranks_before_b a b = true.

#[export] Instance ranks_before_dec a b : Decision (ranks_before a b).
Proof. unfold ranks_before. apply _. Defined.

(** [greatest(x, 0)]: NULL arguments are ignored. *)
Definition greatest0 (x : option Z) : Z :=
  match x with
  | None => 0
  | Some v => Z.max v 0
  end.

(** The whole result set before [limit] and [offset]. *)
Definition full_ordering (w : weights) (js : list joined_row) : list feed_row :=
  merge_sort ranks_before (select_row w <$> js).

Definition window {A} (p_limit p_offset : option Z) (rows : list A) : list A :=
  take (Z.to_nat (greatest0 p_limit)) (drop (Z.to_nat (greatest0 p_offset)) rows).

Definition get_custom_ranked_feed (numeric_in : string → option Q)
    (db : database) (now : timestamptz)
    (requesting_user_id : uuid) (p_limit p_offset : option Z)
  : sql_result (list feed_row) :=
  let w := load_weights numeric_in db requesting_user_id in
  match joined db now requesting_user_id with
  | None => SqlError "division_by_zero"
  | Some js => SqlOk (window p_limit p_offset (full_ordering w js))
  end.

(** The [post_id] column of a result. *)
Definition post_ids (rows : list feed_row) : list N :=
  (λ r, post_id (base (columns r))) <$> rows.

(** The order of [order by final_score desc, created_at desc], spelled
    out: a higher score first, and among equal scores the later post. *)
Definition score_then_newest (a b : feed_row) : Prop :=
  (final_score b < final_score a)%Q
  ∨ ((final_score b == final_score a)%Q
     ∧ created_at (base (columns b)) ≤ created_at (base (columns a))).

(** A stored weight that the cast rejects: a string that is not a number,
    a boolean, an array, an object. *)
Definition malformed (numeric_in : string → option Q) (prefs : json) (key : string) : Prop :=
  match json_get prefs key with
  | Some (JString s) => numeric_in s = None
  | Some (JBool _) | Some (JArray _) | Some (JObject _) => True
  | Some (JNumber _) | Some JNull | None => False
  end.

(** A stored weight that denotes the number [q]. *)
Definition stored_number (numeric_in : string → option Q) (prefs : json) (key : string)
    (q : Q) : Prop :=
  match json_get prefs key with
  | Some (JNumber x) => x = q
  | Some (JString s) => numeric_in s = Some q
  | _ => False
  end.

(** The weight variable a preference key is loaded into. *)
Definition weight_named (w : weights) (key : string) : option Q :=
  if String.eqb key "like_weight" then Some (like_weight w)
  else if String.eqb key "comment_weight" then Some (comment_weight w)
  else if String.eqb key "follower_weight" then Some (follower_weight w)
  else if String.eqb key "recency_weight" then Some (recency_weight w)
  else None.

End Sql.

(** * The edge function [get-feed]

    The model starts where the handler does (line 23).  The store client,
    whose address and key lines 17-18 take from the environment, belongs
    to the world the handler runs in. *)

Module Edge.

(** ** JavaScript numbers and [parseInt] *)

Inductive jsnum :=
| NaN
| Num (q : Q).

(** [Math.max(a, b)]: [NaN] as soon as one argument is. *)
Definition math_max (a b : jsnum) : jsnum :=
  match a, b with
  | Num x, Num y => if Qle_bool x y then Num y else Num x
  | _, _ => NaN
  end.

Definition js_add (a b : jsnum) : jsnum :=
  match a, b with
  | Num x, Num y => Num (x + y)
  | _, _ => NaN
  end.

Definition js_sub (a b : jsnum) : jsnum :=
  match a, b with
  | Num x, Num y => Num (x - y)
  | _, _ => NaN
  end.

(** The integer a number denotes, when it denotes one. *)
Definition integer_of (n : jsnum) : option Z :=
  match n with
  | NaN => None
  | Num q => let r := Qred q in
             if Pos.eqb (Qden r) 1 then Some (Qnum r) else None
  end.

(** Tab, line feed, vertical tab, form feed, carriage return, space: the
    white space of [parseInt] among the 8-bit characters. *)
Definition is_white_space (c : ascii) : bool :=
  let n := N_of_ascii c in
  (N.leb 9 n && N.leb n 13) || N.eqb n 32.

Fixpoint skip_white_space (s : string) : string :=
  match s with
  | String c rest => if is_white_space c then skip_white_space rest else s
  | EmptyString => s
  end.

Definition digit_value (c : ascii) : option Z :=
  let n := N_of_ascii c in
  if N.leb 48 n && N.leb n 57 then Some (Z.of_N n - 48) else None.

(** The longest prefix of decimal digits, [None] when it is empty. *)
Fixpoint read_digits (s : string) (acc : option Z) : option Z :=
  match s with
  | String c rest =>
      match digit_value c with
      | Some d => read_digits rest (Some (10 * default 0 acc + d))
      | None => acc
      end
  | EmptyString => acc
  end.

(** [parseInt(s, 10)]. *)
Definition parseInt (s : string) : jsnum :=
  let trimmed := skip_white_space s in
  let '(negative, digits) :=
    match trimmed with
    | String "-" rest => (true, rest)
    | String "+" rest => (false, rest)
    | _ => (false, trimmed)
    end in
  match read_digits digits None with
  | None => NaN
  | Some n => Num (inject_Z (if negative then - n else n))
  end.

(** ** Requests, responses and the world around the handler *)

Record request := {
  method : string;
  (** [url.searchParams], in order *)
  search_params : list (string * string);
  (** what [req.json()] resolves to; [None] when it rejects *)
  body : option json;
  (** the [Authorization] header *)
  authorization : option string
}.

(** The call the third-party strategy issues: the parsed endpoint with
    the three search parameters set, and the forwarded header. *)
Record outbound_call := {
  endpoint_href : string;
  param_user_id : uuid;
  param_limit : jsnum;
  param_offset : jsnum;
  forwarded_authorization : string
}.

Inductive fetch_result :=
| FetchRejects
(** a response with its status and what [resp.json()] resolves to *)
| FetchResponds (http_status : Z) (parsed : option json).

Inductive query_result (A : Type) :=
| QueryData (data : A)
| QueryError (message : string).
Arguments QueryData {A} data.
Arguments QueryError {A} message.

(** One row of the chronological select: the post and its embedded
    [media:media(type, mux_playback_id, storage_path)] list. *)
Record chrono_row := {
  chrono_post : post;
  attachments : list media_row
}.

Record world := {
  store : database;
  (** [now()] of the transaction that serves the request *)
  clock : timestamptz;
  (** [auth.getUser()] under a given [Authorization] header; [None] for
      an error or no user *)
  get_user : string → option uuid;
  (** injected failures of the three reads *)
  preferences_fault : option string;
  rpc_fault : option string;
  posts_fault : option string;
  (** what the posts endpoint answers to a window that is not a range of
      natural numbers *)
  irregular_range : jsnum → jsnum → query_result (list chrono_row);
  numeric_in : string → option Q;
  (** [new URL(s)]: the parsed URL, [None] where the constructor throws *)
  parse_url : string → option string;
  (** [String(v)] for a value that is not a string *)
  to_text : json → string;
  fetch : outbound_call → fetch_result
}.

Inductive posts_payload :=
| CustomRows (rows : list Sql.feed_row)
| ChronoRows (rows : list chrono_row)
| Passthrough (data : json).

Inductive response_body :=
| Page (posts : posts_payload) (algorithm : string)
| Failure (error : string) (details : option string) (upstream_status : option Z).

Record response := {
  status : Z;
  payload : response_body
}.

(** [json(body, status = 200)]. *)
Definition json_response (b : response_body) (st : Z) : response :=
  {| status := st; payload := b |}.

(** What the handler's promise resolves to. *)
Inductive outcome :=
| Responded (r : response)
| NotAResponse.

(** ** Observable effects: a writer monad over the event trace *)

Inductive event :=
| ConsoleError (label : string)
| NetworkCall (call : outbound_call).

Definition M (A : Type) : Type := list event * A.

#[export] Instance M_ret : MRet M := λ A x, ([], x).
#[export] Instance M_bind : MBind M := λ A B f m,
  let '(t1, x) := m in let '(t2, y) := f x in (t1 ++ t2, y).

Definition emit (e : event) : M unit := ([e], tt).
Definition console_error (label : string) : M unit := emit (ConsoleError label).

Definition trace {A} (m : M A) : list event := m.1.
Definition result {A} (m : M A) : A := m.2.

Definition is_network_call (e : event) : bool :=
  match e with NetworkCall _ => true | ConsoleError _ => false end.

Definition network_calls {A} (m : M A) : nat :=
  length (filter (λ e, is_network_call e = true) (trace m)).

(** ** Page window (lines 25-37) *)

Definition query_window (req : request) : jsnum * jsnum :=
  (math_max (parseInt (default "20" (assoc "limit" (search_params req)))) (Num 0),
   math_max (parseInt (default "0" (assoc "offset" (search_params req)))) (Num 0)).

(** [typeof body?.key === 'number'] *)
Definition number_field (b : json) (key : string) : option Q :=
  match json_get b key with
  | Some (JNumber q) => Some q
  | _ => None
  end.

Definition body_window (req : request) (w : jsnum * jsnum) : jsnum * jsnum :=
  if String.eqb (method req) "GET" then w
  else match body req with
       | None => w
       | Some b =>
           (match number_field b "limit" with
            | Some q => math_max (Num q) (Num 0)
            | None => w.1
            end,
            match number_field b "offset" with
            | Some q => math_max (Num q) (Num 0)
            | None => w.2
            end)
       end.

Definition page_window (req : request) : jsnum * jsnum :=
  body_window req (query_window req).

(** ** Preference resolution (lines 56-67) *)

(** The [{ data, error }] of the [maybeSingle()] read, with the
    [console.error] on failure, followed by [prefRow?.preferences ?? {}]. *)
Definition read_preferences (w : world) (userId : uuid) : M json :=
  match preferences_fault w with
  | Some _ => console_error "preferences error";; mret (JObject [])
  | None =>
      mret (match user_feed_preferences (store w) !! userId with
            | None | Some JNull => JObject []
            | Some prefs => prefs
            end)
  end.

(** [v ?? d] on a looked-up property. *)
Definition nullish_or (v : option json) (d : json) : json :=
  match v with
  | None | Some JNull => d
  | Some x => x
  end.

(** A value used where a string is expected. *)
Definition as_string (w : world) (v : json) : string :=
  match v with
  | JString s => s
  | _ => to_text w v
  end.

Definition algorithm_id (w : world) (preferences : json) : string :=
  as_string w (nullish_or (json_get preferences "algorithm_id") (JString "chronological")).

(** ** Strategies (lines 70-121) *)

Inductive strategy := custom | third_party | chronological.

Definition strategy_name (s : strategy) : string :=
  match s with
  | custom => "custom"
  | third_party => "third_party"
  | chronological => "chronological"
  end.

(** An argument of the remote procedure call, as the [integer] parameter
    receives it: [NaN] serialises to [null]; a number that is not a
    32-bit integer is rejected. *)
Definition rpc_integer (n : jsnum) : option (option Z) :=
  match n with
  | NaN => Some None
  | Num _ =>
      match integer_of n with
      | Some z => if (-2147483648 <=? z) && (z <=? 2147483647) then Some (Some z) else None
      | None => None
      end
  end.

Definition rpc_get_custom_ranked_feed (w : world) (userId : uuid) (limit offset : jsnum)
  : query_result (list Sql.feed_row) :=
  match rpc_fault w with
  | Some e => QueryError e
  | None =>
      match rpc_integer limit, rpc_integer offset with
      | Some p_limit, Some p_offset =>
          match Sql.get_custom_ranked_feed (numeric_in w) (store w) (clock w)
                  userId p_limit p_offset with
          | Sql.SqlOk rows => QueryData rows
          | Sql.SqlError c => QueryError c
          end
      | _, _ => QueryError "invalid input syntax for type integer"
      end
  end.

Definition run_custom (w : world) (userId : uuid) (limit offset : jsnum) : M response :=
  match rpc_get_custom_ranked_feed w userId limit offset with
  | QueryError e =>
      console_error "rpc error";;
      mret (json_response (Failure "ranking_failed" (Some e) None) 500)
  | QueryData data => mret (json_response (Page (CustomRows data) "custom") 200)
  end.

(** JavaScript truthiness of a JSON value. *)
Definition truthy (v : json) : bool :=
  match v with
  | JNull => false
  | JBool b => b
  | JNumber q => negb (Qeq_bool q 0)
  | JString s => negb (String.eqb s "")
  | JArray _ | JObject _ => true
  end.

(** [resp.ok] *)
Definition http_ok (st : Z) : bool := (200 <=? st) && (st <=? 299).

Definition run_third_party (w : world) (userId : uuid) (limit offset : jsnum)
    (authHeader : string) (preferences : json) : M response :=
  let endpoint := nullish_or (json_get preferences "third_party_endpoint") (JString "") in
  if negb (truthy endpoint) then
    mret (json_response (Failure "missing_third_party_endpoint" None None) 400)
  else
    match parse_url w (as_string w endpoint) with
    | None =>
        console_error "third_party exception";;
        mret (json_response (Failure "third_party_exception" None None) 500)
    | Some href =>
        let call := {| endpoint_href := href; param_user_id := userId;
                       param_limit := limit; param_offset := offset;
                       forwarded_authorization := authHeader |} in
        emit (NetworkCall call);;
        match fetch w call with
        | FetchRejects =>
            console_error "third_party exception";;
            mret (json_response (Failure "third_party_exception" None None) 500)
        | FetchResponds st parsed =>
            if negb (http_ok st) then
              mret (json_response (Failure "third_party_failed" None (Some st)) 502)
            else
              match parsed with
              | None =>
                  console_error "third_party exception";;
                  mret (json_response (Failure "third_party_exception" None None) 500)
              | Some data => mret (json_response (Page (Passthrough data) "third_party") 200)
              end
        end
    end.

(** [order("created_at", { ascending: false })] *)
Definition newest_first (a b : post) : Prop := created_at b ≤ created_at a.

#[export] Instance newest_first_dec a b : Decision (newest_first a b).
Proof. unfold newest_first. apply _. Defined.

Definition embed_media (db : database) (p : post) : chrono_row :=
  {| chrono_post := p;
     attachments := filter (λ m, media_post_id m = post_id p) (media db) |}.

Definition chronological_ordering (db : database) : list chrono_row :=
  embed_media db <$> merge_sort newest_first (posts db).

(** The posts select with [.range(from, to)]: both ends inclusive, that
    is, [to - from + 1] rows after the first [from]. *)
Definition select_posts (w : world) (from to : jsnum) : query_result (list chrono_row) :=
  match posts_fault w with
  | Some e => QueryError e
  | None =>
      match integer_of from, integer_of to with
      | Some f, Some t =>
          if (0 <=? f) && (f <=? t) then
            QueryData (take (Z.to_nat (t - f + 1))
                         (drop (Z.to_nat f) (chronological_ordering (store w))))
          else irregular_range w from to
      | _, _ => irregular_range w from to
      end
  end.

Definition run_chronological (w : world) (limit offset : jsnum) : M response :=
  match select_posts w offset
          (math_max (js_sub (js_add offset limit) (Num 1)) offset) with
  | QueryError e =>
      console_error "chronological error";;
      mret (json_response (Failure "chronological_failed" (Some e) None) 500)
  | QueryData data => mret (json_response (Page (ChronoRows data) "chronological") 200)
  end.

Definition run_strategy (w : world) (s : strategy) (userId : uuid)
    (limit offset : jsnum) (authHeader : string) (preferences : json) : M response :=
  match s with
  | custom => run_custom w userId limit offset
  | third_party => run_third_party w userId limit offset authHeader preferences
  | chronological => run_chronological w limit offset
  end.

(** ** Dispatch (lines 123-128) *)

(** What a property read on the [strategies] object literal finds. *)
Inductive property :=
| OwnStrategy (s : strategy)
(** a member inherited from [Object.prototype] which, called with no
    argument and no receiver, returns a value *)
| InheritedReturns
(** ... or throws a [TypeError] *)
| InheritedThrows.

(** The function-valued members of [Object.prototype].  Called as
    [exec()] in module code, the receiver is [undefined]: [Object()]
    makes a fresh object, [toString] answers ["[object Undefined]"],
    [isPrototypeOf(undefined)] answers [false]; the others start by
    converting the receiver to an object, which throws.  (Deno removes
    the [__proto__] accessor.) *)
Definition object_prototype (key : string) : option property :=
  if bool_decide (key ∈ ["constructor"; "toString"; "isPrototypeOf"]) then
    Some InheritedReturns
  else if bool_decide (key ∈ ["valueOf"; "hasOwnProperty"; "propertyIsEnumerable";
                               "toLocaleString"; "__defineGetter__"; "__defineSetter__";
                               "__lookupGetter__"; "__lookupSetter__"]) then
    Some InheritedThrows
  else None.

(** [strategies[key]]: own properties first, then the prototype. *)
Definition strategies_get (key : string) : option property :=
  if String.eqb key "custom" then Some (OwnStrategy custom)
  else if String.eqb key "third_party" then Some (OwnStrategy third_party)
  else if String.eqb key "chronological" then Some (OwnStrategy chronological)
  else object_prototype key.

(** [strategies[algorithmId] ?? strategies["chronological"]] *)
Definition exec (algorithmId : string) : property :=
  match strategies_get algorithmId with
  | Some p => p
  | None => OwnStrategy chronological
  end.

(** ** The handler *)

Definition handler (w : world) (req : request) : M outcome :=
  let '(limit, offset) := page_window req in
  let authHeader := default "" (authorization req) in
  match get_user w authHeader with
  | None => mret (Responded (json_response (Failure "Unauthorized" None None) 401))
  | Some userId =>
      preferences ← read_preferences w userId;
      match exec (algorithm_id w preferences) with
      | OwnStrategy s =>
          r ← run_strategy w s userId limit offset authHeader preferences;
          mret (Responded r)
      | InheritedReturns => mret NotAResponse
      | InheritedThrows =>
          console_error "uncaught exception";;
          mret (Responded (json_response (Failure "internal_server_error" None None) 500))
      end
  end.

End Edge.

(** * Concrete stores, worlds and requests used in the examples *)

Module Sample.

Fixpoint all_digits (s : string) (acc : Z) : option Z :=
  match s with
  | EmptyString => Some acc
  | String c rest =>
      match Edge.digit_value c with
      | Some d => all_digits rest (10 * acc + d)
      | None => None
      end
  end.

(** A fragment of the input syntax of [numeric]: a non-empty string of
    decimal digits denotes its number; in the examples every other text
    handed to the cast is one that the cast rejects. *)
Definition digits_in (s : string) : option Q :=
  if String.eqb s "" then None else inject_Z <$> all_digits s 0.

(** A fragment of the URL constructor called without a base: a string
    with no scheme is rejected; the absolute [https] URLs of the examples
    are already in serialised form. *)
Definition absolute_https (s : string) : option string :=
  if String.prefix "https://" s then Some s else None.

Definition evaluation_instant : timestamptz := 1700000000000000.
Definition one_hour : Z := 3600000000.

Definition no_media : list media_row := [].

(** Two posts: [P1] (id 1) one hour old with three likes, author 20 not
    followed; [P2] (id 2) created at the evaluation instant with one like,
    author 21 followed by the requester, user 7.  No preference record. *)
Definition two_posts : database :=
  {| posts := [ {| post_id := 2; author_id := 21; text_content := Some "second";
                   created_at := evaluation_instant |};
                {| post_id := 1; author_id := 20; text_content := Some "first";
                   created_at := evaluation_instant - one_hour |} ];
     likes := [ {| like_user_id := 11; like_post_id := 1 |};
                {| like_user_id := 12; like_post_id := 1 |};
                {| like_user_id := 13; like_post_id := 1 |};
                {| like_user_id := 11; like_post_id := 2 |} ];
     comments := [];
     follows := [ {| follower_id := 7; followed_id := 21 |} ];
     media := no_media;
     user_feed_preferences := ∅ |}.

Definition with_preferences (db : database) (user : uuid) (prefs : json) : database :=
  {| posts := posts db; likes := likes db; comments := comments db;
     follows := follows db; media := media db;
     user_feed_preferences := <[user := prefs]> (user_feed_preferences db) |}.

(** Eleven posts with distinct ids and timestamps.  Posts 1 to 9 carry one
    like each; post 10 is a hundred hours old (at [evaluation_instant])
    with one comment; post 11 is new and has neither. *)
Definition liked_post (n : N) : post :=
  {| post_id := n; author_id := 30; text_content := None;
     created_at := evaluation_instant - Z.of_N n * one_hour |}.

Definition eleven_posts : database :=
  {| posts := (liked_post <$> [1; 2; 3; 4; 5; 6; 7; 8; 9]%N) ++
              [ {| post_id := 10; author_id := 31; text_content := None;
                   created_at := evaluation_instant - 100 * one_hour |};
                {| post_id := 11; author_id := 32; text_content := None;
                   created_at := evaluation_instant |} ];
     likes := (λ n, {| like_user_id := 40; like_post_id := n |}) <$>
              [1; 2; 3; 4; 5; 6; 7; 8; 9]%N;
     comments := [ {| comment_id := 1; comment_post_id := 10; comment_user_id := 40;
                      content := "hello" |} ];
     follows := [];
     media := no_media;
     user_feed_preferences := ∅ |}.

Definition bearer : string := "Bearer token-of-user-7".

(** A world whose third-party endpoint answers every call with [answer]. *)
Definition world_of (db : database) (answer : Edge.fetch_result) : Edge.world :=
  {| Edge.store := db;
     Edge.clock := evaluation_instant;
     Edge.get_user := λ h, if String.eqb h bearer then Some 7%N else None;
     Edge.preferences_fault := None;
     Edge.rpc_fault := None;
     Edge.posts_fault := None;
     Edge.irregular_range := λ _ _, Edge.QueryError "invalid range";
     Edge.numeric_in := digits_in;
     Edge.parse_url := absolute_https;
     Edge.to_text := λ _, "[object Object]";
     Edge.fetch := λ _, answer |}.

Definition failing_preferences (w : Edge.world) : Edge.world :=
  {| Edge.store := Edge.store w;
     Edge.clock := Edge.clock w;
     Edge.get_user := Edge.get_user w;
     Edge.preferences_fault := Some "connection reset";
     Edge.rpc_fault := Edge.rpc_fault w;
     Edge.posts_fault := Edge.posts_fault w;
     Edge.irregular_range := Edge.irregular_range w;
     Edge.numeric_in := Edge.numeric_in w;
     Edge.parse_url := Edge.parse_url w;
     Edge.to_text := Edge.to_text w;
     Edge.fetch := Edge.fetch w |}.

Definition get_request (params : list (string * string)) (b : option json) : Edge.request :=
  {| Edge.method := "GET"; Edge.search_params := params; Edge.body := b;
     Edge.authorization := Some bearer |}.

Definition post_request (params : list (string * string)) (b : option json) : Edge.request :=
  {| Edge.method := "POST"; Edge.search_params := params; Edge.body := b;
     Edge.authorization := Some bearer |}.

Definition third_party_prefs (endpoint : json) : json :=
  JObject [("algorithm_id", JString "third_party"); ("third_party_endpoint", endpoint)].

Definition algorithm_prefs (name : string) : json :=
  JObject [("algorithm_id", JString name)].

(** One post, dated half an hour after the evaluation instant. *)
Definition post_from_the_future : database :=
  {| posts := [ {| post_id := 1; author_id := 20; text_content := None;
                   created_at := evaluation_instant + 1800000000 |} ];
     likes := []; comments := []; follows := []; media := no_media;
     user_feed_preferences := ∅ |}.

(** A preference record whose [like_weight] is not a number. *)
Definition one_bad_weight : json :=
  JObject [("algorithm_id", JString "custom");
           ("like_weight", JString "heavy");
           ("comment_weight", JNumber 2);
           ("follower_weight", JString "3");
           ("recency_weight", JNumber (1 # 4))].

End Sample.

(** * Constraints of the schema (0001_initial_schema.sql) *)

Module Schema.

(** [constraint follows_self_follow check (follower_id <> followed_id)] *)
Definition follows_self_follow (db : database) : Prop :=
  Forall (λ f, follower_id f ≠ followed_id f) (follows db).

(** [constraint media_photo_requires_storage] *)
Definition media_photo_requires_storage (m : media_row) : Prop :=
  media_kind m ≠ photo ∨ (media_kind m = photo ∧ storage_path m ≠ None).

(** [constraint media_video_requires_playback] *)
Definition media_video_requires_playback (m : media_row) : Prop :=
  media_kind m ≠ video ∨ (media_kind m = video ∧ mux_playback_id m ≠ None).

Definition media_checks (db : database) : Prop :=
  Forall (λ m, media_photo_requires_storage m ∧ media_video_requires_playback m) (media db).

(** [posts.id] is the primary key. *)
Definition posts_pkey (db : database) : Prop := NoDup (post_id <$> posts db).

(** The store once one more row stands in [likes]. *)
Definition with_like (db : database) (l : like_row) : database :=
  {| posts := posts db; likes := l :: likes db; comments := comments db;
     follows := follows db; media := media db;
     user_feed_preferences := user_feed_preferences db |}.

End Schema.

(** * Row level security on [posts], as the test script exercises it
      (0001_initial_schema.sql, scripts/rls-test.js) *)

Module Rls.

(** An [update ... set ... where qual] under a policy [for update using
    (..) with check (..)]: the rows the [using] expression hides are not
    seen by the statement; a new row that fails [with check] aborts it. *)
Definition update_under_policy {A} (using_expr with_check qual : A → bool) (set : A → A)
    (rows : list A) : Sql.sql_result (list A) :=
  let check := with_check in
  let touched r := using_expr r && qual r in
  if forallb (λ r, negb (touched r) || check (set r)) rows then
    Sql.SqlOk ((λ r, if touched r then set r else r) <$> rows)
  else Sql.SqlError "new row violates row-level security policy".

(** [create policy posts_update_own ... using (author_id = auth.uid())
    with check (author_id = auth.uid())] *)
Definition posts_update_own (uid : uuid) (p : post) : bool := N.eqb (author_id p) uid.

Definition set_text_content (text : string) (p : post) : post :=
  {| post_id := post_id p; author_id := author_id p;
     text_content := Some text; created_at := created_at p |}.

(** [tryUpdatePost(supabase, postId, text)] for the client of user [uid]:
    the error it returns, and the posts table afterwards. *)
Definition tryUpdatePost (db : database) (uid : uuid) (postId : uuid) (text : string)
  : option string * list post :=
  match update_under_policy (posts_update_own uid) (posts_update_own uid)
          (λ p, N.eqb (post_id p) postId) (set_text_content text) (posts db) with
  | Sql.SqlOk rows => (None, rows)
  | Sql.SqlError e => (Some e, posts db)
  end.

(** The two checks at the end of [main]: what the run ends with. *)
Inductive run_outcome :=
| Thrown (message : string)
| AllPassed.

Definition with_posts (db : database) (rows : list post) : database :=
  {| posts := rows; likes := likes db; comments := comments db;
     follows := follows db; media := media db;
     user_feed_preferences := user_feed_preferences db |}.

Definition main_checks (db : database) (aId aPostId bPostId : uuid) : run_outcome :=
  let '(errAB, rows) := tryUpdatePost db aId bPostId "Updated by Alice (should fail)" in
  match errAB with
  | None => Thrown "RLS FAILED: User A updated User B post"
  | Some _ =>
      let '(errAA, _) := tryUpdatePost (with_posts db rows) aId aPostId "Updated by Alice" in
      match errAA with
      | Some e => Thrown ("RLS FAILED: User A could not update own post: " +:+ e)
      | None => AllPassed
      end
  end.

End Rls.

(** * Responses on the wire: the JSON a client of [get-feed] parses *)

Module Wire.

Section WithText.

(** The text forms of [uuid] and [timestamptz] values. *)
Variable uuid_text : N → string.
Variable timestamptz_text : Z → string.

Definition text_or_null (o : option string) : json :=
  match o with
  | Some s => JString s
  | None => JNull
  end.

Definition media_type_text (k : media_type) : string :=
  match k with
  | photo => "photo"
  | video => "video"
  end.

(** One row of [returns table (...)], lines 12-25 of the ranking function. *)
Definition custom_row_json (r : Sql.feed_row) : json :=
  let j := Sql.columns r in
  let m := Sql.media_one j in
  JObject [("post_id", JString (uuid_text (post_id (Sql.base j))));
           ("author_id", JString (uuid_text (author_id (Sql.base j))));
           ("text_content", text_or_null (text_content (Sql.base j)));
           ("created_at", JString (timestamptz_text (created_at (Sql.base j))));
           ("like_count", JNumber (inject_Z (Sql.like_count j)));
           ("comment_count", JNumber (inject_Z (Sql.comment_count j)));
           ("is_from_followed", JBool (Sql.is_from_followed j));
           ("recency_score", JNumber (Sql.recency_score j));
           ("final_score", JNumber (Sql.final_score r));
           ("media_type", text_or_null (media_type_text <$> (media_kind <$> m)));
           ("mux_playback_id", text_or_null (m ≫= mux_playback_id));
           ("storage_path", text_or_null (m ≫= storage_path))].

(** One element of the embedded [media:media(type, mux_playback_id,
    storage_path)]. *)
Definition media_json (m : media_row) : json :=
  JObject [("type", JString (media_type_text (media_kind m)));
           ("mux_playback_id", text_or_null (mux_playback_id m));
           ("storage_path", text_or_null (storage_path m))].

(** One row of the chronological select. *)
Definition chrono_row_json (c : Edge.chrono_row) : json :=
  let p := Edge.chrono_post c in
  JObject [("id", JString (uuid_text (post_id p)));
           ("author_id", JString (uuid_text (author_id p)));
           ("text_content", text_or_null (text_content p));
           ("created_at", JString (timestamptz_text (created_at p)));
           ("media", JArray (media_json <$> Edge.attachments c))].

Definition posts_json (p : Edge.posts_payload) : json :=
  match p with
  | Edge.CustomRows rows => JArray (custom_row_json <$> rows)
  | Edge.ChronoRows rows => JArray (chrono_row_json <$> rows)
  | Edge.Passthrough data => data
  end.

(** The body [json(...)] serialises. *)
Definition response_json (r : Edge.response) : json :=
  match Edge.payload r with
  | Edge.Page posts algorithm =>
      JObject [("posts", posts_json posts); ("algorithm", JString algorithm)]
  | Edge.Failure error details upstream =>
      JObject ([("error", JString error)]
               ++ match details with Some d => [("details", JString d)] | None => [] end
               ++ match upstream with
                  | Some st => [("status", JNumber (inject_Z st))]
                  | None => []
                  end)
  end.

End WithText.

End Wire.

(** * The feed screen (app/(tabs)/feed.tsx) *)

Module FeedScreen.

(** A value that is neither [null] nor [undefined]. *)
Definition present (v : option json) : option json :=
  match v with
  | Some JNull | None => None
  | Some x => Some x
  end.

(** [a ?? b], the outcome read up to nullishness. *)
Definition coalesce (a b : option json) : option json :=
  match present a with
  | Some x => Some x
  | None => present b
  end.

(** [FeedPost]; [None] stands for a field that is [null] or [undefined]. *)
Record FeedPost := {
  id : option json;
  post_id : option json;
  author_id : option json;
  text_content : option json;
  created_at : option json;
  media : option json;
  media_type : option json;
  mux_playback_id : option json;
  storage_path : option json
}.

Definition PAGE_SIZE : Z := 10.

(** The callback of [rows.map] in [mapRows]; reading a property of
    [null] throws. *)
Definition mapRow (r : json) : option FeedPost :=
  match r with
  | JNull => None
  | _ =>
      Some {| id := coalesce (json_get r "id") (json_get r "post_id");
              post_id := coalesce (json_get r "post_id") (json_get r "id");
              author_id := present (json_get r "author_id");
              text_content := present (json_get r "text_content");
              created_at := present (json_get r "created_at");
              media := present (json_get r "media");
              media_type := present (json_get r "media_type");
              mux_playback_id := present (json_get r "mux_playback_id");
              storage_path := present (json_get r "storage_path") |}
  end.

Definition mapRows (rows : list json) : option (list FeedPost) := mapM mapRow rows.

(** [(data as any)?.posts ?? []], then [rows.map]: a value that is not an
    array has no [map]. *)
Definition rows_of (data : json) : option (list json) :=
  match present (json_get data "posts") with
  | None => Some []
  | Some (JArray rows) => Some rows
  | Some _ => None
  end.

Record state := {
  items : list FeedPost;
  offset : Z;
  loading : bool;
  refreshing : bool
}.

Inductive invoke_result :=
| InvokeData (data : json)
| InvokeError.

Definition request_body (reset : bool) (s : state) : json :=
  JObject [("limit", JNumber (inject_Z PAGE_SIZE));
           ("offset", JNumber (inject_Z (if reset then 0 else offset s)))].

(** The [finally] block. *)
Definition settle (reset : bool) (s : state) : state :=
  {| items := items s; offset := offset s; loading := false;
     refreshing := if reset then false else refreshing s |}.

(** One call of [fetchPage(reset)] that runs to its end from the rendered
    state [s], nothing else updating the state meanwhile. *)
Definition fetchPage (invoke : json → invoke_result) (reset : bool) (s : state) : state :=
  if loading s then s
  else
    match invoke (request_body reset s) with
    | InvokeError => settle reset s
    | InvokeData data =>
        match rows_of data ≫= mapRows with
        | None => settle reset s
        | Some rows =>
            settle reset
              {| items := if reset then rows else items s ++ rows;
                 offset := if reset then PAGE_SIZE else offset s + PAGE_SIZE;
                 loading := loading s; refreshing := refreshing s |}
        end
    end.

(** [onRefresh] *)
Definition onRefresh (invoke : json → invoke_result) (s : state) : state :=
  fetchPage invoke true
    {| items := items s; offset := offset s; loading := loading s; refreshing := true |}.

(** [onEndReached] *)
Definition onEndReached (invoke : json → invoke_result) (s : state) : state :=
  if loading s then s else fetchPage invoke false s.

Definition initial : state :=
  {| items := []; offset := 0; loading := false; refreshing := false |}.

(** [keyExtractor] *)
Definition keyExtractor (item : FeedPost) (idx : nat) : json :=
  default (JString (pretty idx)) (id item).

(** [functions.invoke('get-feed', { body })]: a POST of the JSON body
    under the session's authorization; a status outside 200..299 is an
    error, otherwise the parsed body is the data. *)
Definition invoke_get_feed (uuid_text : N → string) (timestamptz_text : Z → string)
    (w : Edge.world) (authorization : option string) (body : json) : invoke_result :=
  match Edge.result (Edge.handler w
          {| Edge.method := "POST"; Edge.search_params := [];
             Edge.body := Some body; Edge.authorization := authorization |}) with
  | Edge.Responded r =>
      if Edge.http_ok (Edge.status r)
      then InvokeData (Wire.response_json uuid_text timestamptz_text r)
      else InvokeError
  | Edge.NotAResponse => InvokeError
  end.

(** ** [PostItem] *)

(** [v?.[0]] for a value [v] that is present. *)
Definition index0 (v : json) : option json :=
  match v with
  | JArray (x :: _) => Some x
  | JObject fields => assoc "0" fields
  | JString (String c _) => Some (JString (String c EmptyString))
  | _ => None
  end.

(** [item.media?.[0]?.[key]] *)
Definition first_media (item : FeedPost) (key : string) : option json :=
  m ← media item; e ← present (index0 m); json_get e key.

Inductive rendering :=
| VideoPlayer (uri : string)
| PhotoImage (storagePath : string)
| NoMedia.

Definition PostItem (to_text : json → string) (item : FeedPost) : rendering :=
  let text v := match v with JString s => s | _ => to_text v end in
  let mediaType := coalesce (media_type item) (first_media item "type") in
  let playbackId := coalesce (mux_playback_id item) (first_media item "mux_playback_id") in
  let storagePath := coalesce (storage_path item) (first_media item "storage_path") in
  match mediaType, playbackId, storagePath with
  | Some (JString "video"), Some p, _ =>
      if Edge.truthy p then VideoPlayer ("https://stream.mux.com/" +:+ text p +:+ ".m3u8")
      else NoMedia
  | Some (JString "photo"), _, Some s =>
      if Edge.truthy s then PhotoImage (text s) else NoMedia
  | _, _, _ => NoMedia
  end.

End FeedScreen.

(** The items [mapRows] makes of the rows of the two store-backed
    strategies, field by field. *)

Module Items.

Section WithText.

Variable uuid_text : N → string.
Variable timestamptz_text : Z → string.

Definition of_chronological (c : Edge.chrono_row) : FeedScreen.FeedPost :=
  let p := Edge.chrono_post c in
  {| FeedScreen.id := Some (JString (uuid_text (post_id p)));
     FeedScreen.post_id := Some (JString (uuid_text (post_id p)));
     FeedScreen.author_id := Some (JString (uuid_text (author_id p)));
     FeedScreen.text_content := JString <$> text_content p;
     FeedScreen.created_at := Some (JString (timestamptz_text (created_at p)));
     FeedScreen.media :=
       Some (JArray (Wire.media_json <$> Edge.attachments c));
     FeedScreen.media_type := None;
     FeedScreen.mux_playback_id := None;
     FeedScreen.storage_path := None |}.

Definition of_custom (r : Sql.feed_row) : FeedScreen.FeedPost :=
  let j := Sql.columns r in
  let p := Sql.base j in
  {| FeedScreen.id := Some (JString (uuid_text (post_id p)));
     FeedScreen.post_id := Some (JString (uuid_text (post_id p)));
     FeedScreen.author_id := Some (JString (uuid_text (author_id p)));
     FeedScreen.text_content := JString <$> text_content p;
     FeedScreen.created_at := Some (JString (timestamptz_text (created_at p)));
     FeedScreen.media := None;
     FeedScreen.media_type :=
       (λ m, JString (Wire.media_type_text (media_kind m))) <$> Sql.media_one j;
     FeedScreen.mux_playback_id := JString <$> (Sql.media_one j ≫= mux_playback_id);
     FeedScreen.storage_path := JString <$> (Sql.media_one j ≫= storage_path) |}.

(** What [PostItem] shows for an attachment. *)
Definition shown (m : option media_row) : FeedScreen.rendering :=
  match m with
  | None => FeedScreen.NoMedia
  | Some m =>
      match media_kind m with
      | video =>
          match mux_playback_id m with
          | Some s =>
              if String.eqb s "" then FeedScreen.NoMedia
              else FeedScreen.VideoPlayer ("https://stream.mux.com/" +:+ s +:+ ".m3u8")
          | None => FeedScreen.NoMedia
          end
      | photo =>
          match storage_path m with
          | Some s =>
              if String.eqb s "" then FeedScreen.NoMedia else FeedScreen.PhotoImage s
          | None => FeedScreen.NoMedia
          end
      end
  end.

End WithText.

End Items.

(** * The settings screen (app/(tabs)/settings.tsx) *)

Module Settings.

Definition defaultPrefs : list (string * json) :=
  [("algorithm_id", JString "custom");
   ("like_weight", JNumber 1);
   ("comment_weight", JNumber (1 # 2));
   ("follower_weight", JNumber 1);
   ("recency_weight", JNumber 1)].

(** [{ ...o, [key]: v }]: the key keeps its place when [o] has it. *)
Fixpoint set_property (key : string) (v : json) (o : list (string * json))
  : list (string * json) :=
  match o with
  | [] => [(key, v)]
  | (k, x) :: rest =>
      if String.eqb k key then (k, v) :: rest else (k, x) :: set_property key v rest
  end.

(** The own enumerable properties a spread copies out of a value. *)
Definition own_properties (v : json) : list (string * json) :=
  match v with
  | JObject fields => fields
  | JArray items => imap (λ i x, (pretty i, x)) items
  | JString s =>
      imap (λ i c, (pretty i, JString (String c EmptyString))) (String.list_ascii_of_string s)
  | JNull | JBool _ | JNumber _ => []
  end.

(** [{ ...a, ...b }] *)
Definition spread (a b : list (string * json)) : list (string * json) :=
  foldl (λ o kv, set_property kv.1 kv.2 o) a b.

(** [load]: the state after it, from the state before and the answer of
    the [maybeSingle()] read of the caller's record. *)
Definition load (answer : Edge.query_result (option json)) (prefs : list (string * json))
  : list (string * json) :=
  match answer with
  | Edge.QueryError _ => prefs
  | Edge.QueryData row =>
      spread defaultPrefs (match row with Some p => own_properties p | None => [] end)
  end.

(** The read of one's own record. *)
Definition read_own (db : database) (user : uuid) : Edge.query_result (option json) :=
  Edge.QueryData (user_feed_preferences db !! user).

(** [save]: the upsert of [{ user_id, preferences: prefs }]. *)
Definition save (db : database) (user : uuid) (prefs : list (string * json)) : database :=
  {| posts := posts db; likes := likes db; comments := comments db;
     follows := follows db; media := media db;
     user_feed_preferences := <[user := JObject prefs]> (user_feed_preferences db) |}.

(** The world once [save] has gone through. *)
Definition saved (w : Edge.world) (user : uuid) (prefs : list (string * json)) : Edge.world :=
  {| Edge.store := save (Edge.store w) user prefs;
     Edge.clock := Edge.clock w;
     Edge.get_user := Edge.get_user w;
     Edge.preferences_fault := Edge.preferences_fault w;
     Edge.rpc_fault := Edge.rpc_fault w;
     Edge.posts_fault := Edge.posts_fault w;
     Edge.irregular_range := Edge.irregular_range w;
     Edge.numeric_in := Edge.numeric_in w;
     Edge.parse_url := Edge.parse_url w;
     Edge.to_text := Edge.to_text w;
     Edge.fetch := Edge.fetch w |}.

End Settings.

(** * The root layout (app/_layout.tsx) *)

Module Layout.

Inductive route := Login | Feed.

(** The segments of the route [router.replace] goes to. *)
Definition segments_of (r : route) : list string :=
  match r with
  | Login => ["(auth)"; "login"]
  | Feed => ["(tabs)"; "feed"]
  end.

(** The effect of [AuthGate]: the route it replaces the current one
    with, if any. *)
Definition AuthGate (isLoggedIn isLoading : bool) (segments : list string) : option route :=
  if isLoading then None
  else
    let inAuthGroup := bool_decide (head segments = Some "(auth)") in
    if negb isLoggedIn && negb inAuthGroup then Some Login
    else if isLoggedIn && inAuthGroup then Some Feed
    else None.

(** The segments once the effect has run. *)
Definition after_gate (isLoggedIn isLoading : bool) (segments : list string) : list string :=
  match AuthGate isLoggedIn isLoading segments with
  | Some r => segments_of r
  | None => segments
  end.

End Layout.

(** * Further stores and requests used in the examples *)

Module Scenario.

Definition uuid_text (n : N) : string := pretty n.
Definition timestamptz_text (z : Z) : string := pretty z.

(** Post 1 by user 7 with two attachments, post 2 by user 21 with one,
    post 3 by user 21 with none; user 7 follows user 21. *)
Definition with_media : database :=
  {| posts := [ {| post_id := 1; author_id := 7; text_content := Some "mine";
                   created_at := Sample.evaluation_instant - 3 * Sample.one_hour |};
                {| post_id := 2; author_id := 21; text_content := None;
                   created_at := Sample.evaluation_instant - 2 * Sample.one_hour |};
                {| post_id := 3; author_id := 21; text_content := Some "words";
                   created_at := Sample.evaluation_instant - Sample.one_hour |} ];
     likes := [ {| like_user_id := 21; like_post_id := 1 |} ];
     comments := [];
     follows := [ {| follower_id := 7; followed_id := 21 |} ];
     media := [ {| media_post_id := 1; media_kind := photo;
                   storage_path := Some "7/old.jpg"; mux_playback_id := None;
                   media_created_at := Sample.evaluation_instant - 3 * Sample.one_hour |};
                {| media_post_id := 2; media_kind := video;
                   storage_path := None; mux_playback_id := Some "abc123";
                   media_created_at := Sample.evaluation_instant - 2 * Sample.one_hour |};
                {| media_post_id := 1; media_kind := photo;
                   storage_path := Some "7/new.jpg"; mux_playback_id := None;
                   media_created_at := Sample.evaluation_instant - 2 * Sample.one_hour |} ];
     user_feed_preferences := ∅ |}.

(** A post dated exactly one hour after the evaluation instant, beside
    the two posts of [Sample.two_posts]. *)
Definition one_hour_ahead : database :=
  {| posts := {| post_id := 9; author_id := 20; text_content := None;
                 created_at := Sample.evaluation_instant + Sample.one_hour |}
              :: posts Sample.two_posts;
     likes := likes Sample.two_posts; comments := []; follows := follows Sample.two_posts;
     media := Sample.no_media; user_feed_preferences := ∅ |}.

End Scenario.

(** * Properties of the page window *)

Import Edge.

(** [Math.max(x, 0)] of a number is that number when it is not negative
    and zero otherwise; in particular it is never negative. *)
Lemma math_max_zero_nonneg (n : jsnum) (q : Q) :
  math_max n (Num 0) = Num q → (0 <= q)%Q.
Proof.
  destruct n as [|x]; simpl; [discriminate|].
  destruct (Qle_bool x 0) eqn:E; intros [= <-].
  - apply Qle_refl.
  - destruct (Qlt_le_dec 0 x) as [H|H]; [by apply Qlt_le_weak|].
    apply Qle_bool_iff in H. congruence.
Qed.

Lemma math_max_zero_of_nonneg (q : Q) :
  (0 <= q)%Q → ∃ q', math_max (Num q) (Num 0) = Num q' ∧ (q' == q)%Q.
Proof.
  intros H. simpl. destruct (Qle_bool q 0) eqn:E.
  - exists 0%Q. split; [done|]. apply Qle_bool_iff in E. by apply Qle_antisym.
  - by exists q.
Qed.

Lemma math_max_zero_of_neg (q : Q) :
  (q < 0)%Q → math_max (Num q) (Num 0) = Num 0.
Proof.
  intros H. simpl. destruct (Qle_bool q 0) eqn:E; [done|].
  apply Qlt_le_weak, Qle_bool_iff in H. congruence.
Qed.

(** C10: a request with no [limit] search parameter and no numeric
    [limit] in its body gets the page limit 20; with no [offset] search
    parameter and no numeric [offset] in its body, the offset 0. *)
Theorem default_page_window (req : request) :
  (assoc "limit" (search_params req) = None →
   (∀ b, body req = Some b → number_field b "limit" = None) →
   (page_window req).1 = Num 20)
  ∧ (assoc "offset" (search_params req) = None →
     (∀ b, body req = Some b → number_field b "offset" = None) →
     (page_window req).2 = Num 0).
Proof.
  unfold page_window, body_window, query_window.
  split; intros Hq Hb; rewrite Hq;
    destruct (String.eqb (method req) "GET"); try reflexivity;
    destruct (body req) as [b|]; try reflexivity;
    simpl; rewrite (Hb b eq_refl); reflexivity.
Qed.

Lemma default_page_window_witness :
  (page_window (Sample.post_request [] (Some (JObject [("cursor", JString "x")])))).1 = Num 20
  ∧ (page_window (Sample.post_request [] (Some (JObject [("cursor", JString "x")])))).2 = Num 0.
Proof.
  split.
  - apply (proj1 (default_page_window _)); [reflexivity|].
    intros b [= <-]. reflexivity.
  - apply (proj2 (default_page_window _)); [reflexivity|].
    intros b [= <-]. reflexivity.
Defined.




(** * The third-party strategy *)

Ltac run_writer :=
  unfold network_calls, trace, result, console_error, emit,
    mbind, M_bind, mret, M_ret; simpl.

(** C7 (as amended): an absent, null or empty endpoint is answered 400
    and an endpoint that does not parse is answered 500, both without a
    network call; once the call is issued, a rejected fetch is answered
    500, a status outside 200..299 is answered 502, and the call is
    issued once. *)
Theorem third_party_outcomes (w : world) (userId : uuid) (limit offset : jsnum)
    (authHeader : string) (preferences : json) :
  let endpoint := nullish_or (json_get preferences "third_party_endpoint") (JString "") in
  let m := run_third_party w userId limit offset authHeader preferences in
  (truthy endpoint = false →
     result m = json_response (Failure "missing_third_party_endpoint" None None) 400
     ∧ network_calls m = 0%nat)
  ∧ (truthy endpoint = true → parse_url w (as_string w endpoint) = None →
     result m = json_response (Failure "third_party_exception" None None) 500
     ∧ network_calls m = 0%nat)
  ∧ (∀ href, truthy endpoint = true → parse_url w (as_string w endpoint) = Some href →
     let call := {| endpoint_href := href; param_user_id := userId;
                    param_limit := limit; param_offset := offset;
                    forwarded_authorization := authHeader |} in
     filter (λ e, is_network_call e = true) (trace m) = [NetworkCall call]
     ∧ match fetch w call with
       | FetchRejects =>
           result m = json_response (Failure "third_party_exception" None None) 500
       | FetchResponds st parsed =>
           if http_ok st then
             match parsed with
             | Some data => result m = json_response (Page (Passthrough data) "third_party") 200
             | None => result m = json_response (Failure "third_party_exception" None None) 500
             end
           else result m = json_response (Failure "third_party_failed" None (Some st)) 502
       end)
  ∧ (network_calls m ≤ 1)%nat.
Proof.
  intros endpoint m. subst m. unfold run_third_party. fold endpoint.
  split; [|split; [|split]].
  - intros ->. split; reflexivity.
  - intros -> ->. split; reflexivity.
  - intros href -> ->. split.
    + destruct (fetch w _) as [|st [data|]]; [| destruct (http_ok st) ..];
        reflexivity.
    + destruct (fetch w _) as [|st [data|]]; [| destruct (http_ok st) ..];
        reflexivity.
  - destruct (truthy endpoint); [|run_writer; lia].
    destruct (parse_url w _); [|run_writer; lia].
    destruct (fetch w _) as [|st [data|]]; [| destruct (http_ok st) ..];
      run_writer; lia.
Qed.

Lemma third_party_outcomes_witness :
  let w := Sample.world_of Sample.two_posts (FetchResponds 503 None) in
  let m := run_third_party w 7%N (Num 10) (Num 0) Sample.bearer
             (Sample.third_party_prefs (JString "https://scorer.example/rank")) in
  result m = json_response (Failure "third_party_failed" None (Some 503)) 502
  ∧ network_calls m = 1%nat
  ∧ result (run_third_party w 7%N (Num 10) (Num 0) Sample.bearer
              (Sample.third_party_prefs (JString "")))
    = json_response (Failure "missing_third_party_endpoint" None None) 400.
Proof.
  intros w m.
  destruct (third_party_outcomes w 7%N (Num 10) (Num 0) Sample.bearer
              (Sample.third_party_prefs (JString "https://scorer.example/rank")))
    as (_ & _ & Hcall & _).
  destruct (Hcall "https://scorer.example/rank" eq_refl eq_refl) as [Htrace Hres].
  destruct (third_party_outcomes w 7%N (Num 10) (Num 0) Sample.bearer
              (Sample.third_party_prefs (JString ""))) as (Hmissing & _).
  split; [exact Hres|]. split.
  - subst m. unfold network_calls. rewrite Htrace. reflexivity.
  - exact (proj1 (Hmissing eq_refl)).
Defined.

(** C7, the claim as stated fails: with the endpoint ["not a url"] the
    answer is 500 [third_party_exception], not 400; no call is issued. *)
Lemma malformed_endpoint_is_500 :
  let w := Sample.world_of
             (Sample.with_preferences Sample.two_posts 7 (Sample.third_party_prefs (JString "not a url")))
             FetchRejects in
  handler w (Sample.get_request [] None)
  = ([ConsoleError "third_party exception"],
     Responded (json_response (Failure "third_party_exception" None None) 500)).
Proof. vm_compute. reflexivity. Qed.

(** * Dispatch *)

(** Where the dispatcher does fall back: a key that is neither a strategy
    name nor a member of [Object.prototype]. *)
Lemma exec_fallback (key : string) :
  strategies_get key = None → exec key = OwnStrategy chronological.
Proof. unfold exec. by intros ->. Qed.

Lemma exec_own (s : strategy) : exec (strategy_name s) = OwnStrategy s.
Proof. by destruct s. Qed.

(** A page is tagged with the name of the strategy that produced it. *)
Lemma page_tagged_with_strategy (w : world) (s : strategy) (userId : uuid)
    (limit offset : jsnum) (authHeader : string) (preferences : json)
    (posts : posts_payload) (tag : string) :
  payload (result (run_strategy w s userId limit offset authHeader preferences))
    = Page posts tag →
  tag = strategy_name s.
Proof.
  destruct s; simpl.
  - unfold run_custom.
    destruct (rpc_get_custom_ranked_feed _ _ _ _); run_writer; congruence.
  - unfold run_third_party.
    destruct (truthy _); [|run_writer; congruence].
    destruct (parse_url w _); [|run_writer; congruence].
    destruct (fetch w _) as [|st [data|]]; [| destruct (http_ok st) ..];
      run_writer; congruence.
  - unfold run_chronological.
    destruct (select_posts _ _ _); run_writer; congruence.
Qed.

(** C6, the code at the failing input: with [algorithm_id] set to
    ["constructor"], a name no strategy has, the handler does not answer
    with the chronological page; the property read finds
    [Object.prototype.constructor], calls it, and resolves to a value that
    is not a response.  With ["nonexistent"] it does fall back. *)
Theorem inherited_member_dispatch :
  let w name := Sample.world_of
                  (Sample.with_preferences Sample.two_posts 7 (Sample.algorithm_prefs name))
                  FetchRejects in
  let req := Sample.get_request [] None in
  handler (w "constructor") req = ([], NotAResponse)
  ∧ handler (w "valueOf") req
    = ([ConsoleError "uncaught exception"],
       Responded (json_response (Failure "internal_server_error" None None) 500))
  ∧ handler (w "nonexistent") req
    = ([], Responded (result (run_chronological (w "nonexistent") (Num 20) (Num 0))))
  ∧ ∃ rows, result (run_chronological (w "constructor") (Num 20) (Num 0))
            = json_response (Page (ChronoRows rows) "chronological") 200.
Proof.
  repeat split; try (vm_compute; reflexivity).
  eexists. vm_compute. reflexivity.
Qed.

(** * Preference resolution *)

(** C3: when the requester has no preference record, or the read of the
    record fails, the algorithm resolves to ["chronological"], every weight
    read from the resolved document keeps its default, the request is
    served by the chronological strategy, and a failed read leaves a
    [console.error] and nothing else; the SQL function, finding no
    record, uses the weights 1.0, 0.5, 1.0, 1.0. *)
Theorem preference_resolution_fail_soft (w : world) (userId : uuid)
    (Hnone : user_feed_preferences (store w) !! userId = None
             ∨ is_Some (preferences_fault w)) :
  let resolved := result (read_preferences w userId) in
  algorithm_id w resolved = "chronological"
  ∧ (∀ key d, Sql.assign_weight (numeric_in w) resolved key d = d)
  ∧ (∀ req, get_user w (default "" (authorization req)) = Some userId →
       result (handler w req)
       = Responded (result (run_chronological w (page_window req).1 (page_window req).2)))
  ∧ (is_Some (preferences_fault w) →
       trace (read_preferences w userId) = [ConsoleError "preferences error"])
  ∧ (user_feed_preferences (store w) !! userId = None →
       Sql.load_weights (numeric_in w) (store w) userId = Sql.default_weights)
  ∧ Sql.default_weights
    = {| Sql.like_weight := 1; Sql.comment_weight := 1 # 2;
         Sql.follower_weight := 1; Sql.recency_weight := 1 |}.
Proof.
  assert (Hres : read_preferences w userId = ([], JObject [])
                 ∨ read_preferences w userId
                   = ([ConsoleError "preferences error"], JObject [])
                   ∧ is_Some (preferences_fault w)).
  { unfold read_preferences.
    destruct (preferences_fault w) as [e|] eqn:Hf.
    - right. split; [reflexivity | by eexists].
    - left. destruct Hnone as [-> | [e He]]; [reflexivity | discriminate]. }
  intros resolved.
  assert (Hdoc : resolved = JObject [])
    by (subst resolved; destruct Hres as [-> | [-> _]]; reflexivity).
  repeat split.
  - rewrite Hdoc. reflexivity.
  - intros key d. rewrite Hdoc. reflexivity.
  - intros req Hu. unfold handler.
    destruct (page_window req) as [limit offset]. rewrite Hu. simpl.
    destruct Hres as [-> | [-> _]]; run_writer;
      destruct (run_chronological w limit offset) as [t r]; reflexivity.
  - intros [e He]. unfold read_preferences. rewrite He. reflexivity.
  - intros Hn. unfold Sql.load_weights. rewrite Hn. reflexivity.
Qed.

Lemma preference_resolution_fail_soft_witness :
  let w := Sample.failing_preferences
             (Sample.world_of
                (Sample.with_preferences Sample.two_posts 7 (Sample.algorithm_prefs "custom"))
                FetchRejects) in
  algorithm_id w (result (read_preferences w 7%N)) = "chronological"
  ∧ ∃ rows, handler w (Sample.get_request [] None)
            = ([ConsoleError "preferences error"],
               Responded (json_response (Page (ChronoRows rows) "chronological") 200)).
Proof.
  intros w.
  pose proof (preference_resolution_fail_soft w 7%N
                (or_intror (ex_intro _ "connection reset"%string eq_refl))) as H.
  split; [exact (proj1 H)|].
  eexists. vm_compute. reflexivity.
Defined.

(** * The ranking function: ordering and windows *)

Section Ordering.

Import Sql.

Lemma ranks_before_spec (a b : feed_row) :
  ranks_before a b ↔
  (final_score b < final_score a)%Q
  ∨ ((final_score b == final_score a)%Q
     ∧ created_at (base (columns b)) ≤ created_at (base (columns a))).
Proof.
  unfold ranks_before, ranks_before_b.
  destruct (final_score b ?= final_score a)%Q eqn:E.
  - apply Qeq_alt in E. rewrite Z.leb_le. split; [auto|].
    intros [H|[_ H]]; [lra | done].
  - apply Qlt_alt in E. split; auto.
  - apply Qgt_alt in E. split; [done|].
    intros [H|[H _]]; lra.
Qed.

#[local] Instance ranks_before_trans : Transitive ranks_before.
Proof.
  intros a b c. rewrite !ranks_before_spec.
  intros [H1|[H1 T1]] [H2|[H2 T2]].
  - left. lra.
  - left. lra.
  - left. lra.
  - right. split; [lra | lia].
Qed.

#[local] Instance ranks_before_total : Total ranks_before.
Proof.
  intros a b. rewrite !ranks_before_spec.
  destruct (Q_dec (final_score a) (final_score b)) as [[H|H]|H]; [auto..|].
  destruct (Z.le_ge_cases (created_at (base (columns a))) (created_at (base (columns b)))).
  - right. right. split; [|done]. lra.
  - left. right. split; [|done]. lra.
Qed.

Lemma full_ordering_sorted (w : weights) (js : list joined_row) :
  StronglySorted ranks_before (full_ordering w js).
Proof. apply StronglySorted_merge_sort; apply _. Qed.

Lemma full_ordering_perm (w : weights) (js : list joined_row) :
  full_ordering w js ≡ₚ select_row w <$> js.
Proof. apply merge_sort_Permutation. Qed.

Lemma elem_of_window {A} (l o : option Z) (rows : list A) (x : A) :
  x ∈ window l o rows → x ∈ rows.
Proof.
  unfold window. intros H.
  apply (subseteq_drop (Z.to_nat (greatest0 o)) rows).
  by apply (subseteq_take (Z.to_nat (greatest0 l))).
Qed.

Lemma window_sorted {A} (R : relation A) (l o : option Z) (rows : list A) :
  StronglySorted R rows → StronglySorted R (window l o rows).
Proof.
  intros H. unfold window.
  assert (Hd : StronglySorted R (drop (Z.to_nat (greatest0 o)) rows)).
  { rewrite <- (take_drop (Z.to_nat (greatest0 o)) rows) in H.
    by apply StronglySorted_app in H as (_ & _ & H). }
  rewrite <- (take_drop (Z.to_nat (greatest0 l)) (drop _ rows)) in Hd.
  by apply StronglySorted_app in Hd as (_ & Hd & _).
Qed.

Lemma window_length {A} (l o : option Z) (rows : list A) :
  Z.of_nat (length (window l o rows)) ≤ greatest0 l.
Proof.
  unfold window. rewrite length_take.
  assert (0 ≤ greatest0 l) by (destruct l; simpl; lia). lia.
Qed.

Lemma take_take_drop_app {A} (n m : nat) (l : list A) :
  take n l ++ take m (drop n l) = take (n + m) l.
Proof.
  revert l. induction n as [|n IH]; intros [|x l]; simpl; try done.
  - by rewrite take_nil.
  - by rewrite IH.
Qed.

(** In a sorted list, an element that must not follow another one stands
    before it. *)
Lemma sorted_precedes {A} (R : relation A) (l : list A) (x y : A) :
  StronglySorted R l → x ∈ l → y ∈ l → ¬ R y x → R x x →
  ∃ l1 l2 l3, l = l1 ++ x :: l2 ++ y :: l3.
Proof.
  intros Hs Hx Hy Hn Hrefl.
  apply list_elem_of_split in Hx as (l1 & l2 & ->).
  apply StronglySorted_app in Hs as (Hcross & _ & _).
  apply elem_of_app in Hy as [Hy|Hy].
  - exfalso. apply Hn, Hcross; [done | by left].
  - apply elem_of_cons in Hy as [->|Hy]; [done|].
    apply list_elem_of_split in Hy as (l3 & l4 & ->).
    by exists l1, l3, l4.
Qed.

(** ** Rows of the result come from posts *)

Lemma hours_since_created_alt (now created : Z) :
  (hours_since_created now created == inject_Z (now - created) * (1 # 3600000000))%Q.
Proof. unfold hours_since_created. field. Qed.

Lemma recency_defined (now created : Z) :
  created ≠ now + 3600000000 → is_Some (recency now created).
Proof.
  intros Hne. unfold recency. cbv zeta.
  destruct (Qeq_bool _ 0) eqn:E; [|by eexists].
  exfalso. apply Qeq_bool_iff in E. rewrite hours_since_created_alt in E.
  assert (Hz : (inject_Z (now - created) == inject_Z (- 3600000000))%Q).
  { change (inject_Z (-3600000000)) with (- (3600000000))%Q. lra. }
  pose proof (proj1 (inject_Z_injective _ _) Hz). lia.
Qed.

Lemma recency_value (now created : Z) (r : Q) :
  recency now created = Some r →
  (r == 1 / (1 + hours_since_created now created))%Q
  ∧ ¬ (1 + hours_since_created now created == 0)%Q.
Proof.
  unfold recency. cbv zeta.
  destruct (Qeq_bool _ 0) eqn:E; [discriminate|].
  intros [= <-]. split; [reflexivity|].
  intros H. apply Qeq_bool_iff in H. congruence.
Qed.

Lemma joined_defined (db : database) (now : Z) (u : uuid) :
  Forall (λ p, created_at p ≠ now + 3600000000) (posts db) →
  is_Some (joined db now u).
Proof.
  unfold joined. generalize (posts db) as ps.
  induction 1 as [|p ps Hp _ [js IH]]; [by eexists|].
  destruct (recency_defined now (created_at p) Hp) as [r Hr].
  eexists (_ :: js). apply mapM_Some. constructor; [|by apply mapM_Some].
  unfold join_post. rewrite Hr. reflexivity.
Qed.

Lemma joined_rows (db : database) (now : Z) (u : uuid) (js : list joined_row) :
  joined db now u = Some js →
  Forall2 (λ p j, join_post db now u p = Some j) (posts db) js.
Proof. unfold joined. intros H. by apply mapM_Some in H. Qed.

Lemma join_post_spec (db : database) (now : Z) (u : uuid) (p : post) (j : joined_row) :
  join_post db now u p = Some j →
  base j = p
  ∧ like_count j = count_likes db (post_id p)
  ∧ comment_count j = count_comments db (post_id p)
  ∧ is_from_followed j = follows_author db u (author_id p)
  ∧ recency now (created_at p) = Some (recency_score j).
Proof.
  unfold join_post. destruct (recency now (created_at p)) as [r|]; [|discriminate].
  simpl. intros [= <-]. simpl. auto.
Qed.

Lemma joined_bases (db : database) (now : Z) (u : uuid) (js : list joined_row) :
  joined db now u = Some js → base <$> js = posts db.
Proof.
  intros H. apply joined_rows in H.
  induction H as [|p j ps js Hj _ IH]; [done|].
  rewrite fmap_cons. apply join_post_spec in Hj as (Hb & _). by f_equal.
Qed.

(** Every row of a result is the scored join of one post of the store. *)
Lemma feed_row_origin (numeric_in : string → option Q) (db : database) (now : Z)
    (u : uuid) (l o : option Z) (rows : list feed_row) (r : feed_row) :
  get_custom_ranked_feed numeric_in db now u l o = SqlOk rows → r ∈ rows →
  ∃ js p, joined db now u = Some js
          ∧ rows = window l o (full_ordering (load_weights numeric_in db u) js)
          ∧ p ∈ posts db
          ∧ columns r ∈ js
          ∧ join_post db now u p = Some (columns r)
          ∧ final_score r = score (load_weights numeric_in db u) (columns r).
Proof.
  unfold get_custom_ranked_feed. cbv zeta.
  destruct (joined db now u) as [js|] eqn:Hj; [|discriminate].
  intros [= <-] Hr. apply elem_of_window in Hr.
  rewrite full_ordering_perm in Hr.
  apply list_elem_of_fmap in Hr as (j & -> & Hjin).
  apply joined_rows in Hj as HF.
  destruct (proj1 (list_elem_of_lookup _ _) Hjin) as [i Hi].
  destruct (Forall2_lookup_r _ _ _ _ _ HF Hi) as (p & Hp & Hpj).
  exists js, p. repeat split; try done.
  by eapply list_elem_of_lookup_2.
Qed.

Lemma feed_sorted (numeric_in : string → option Q) (db : database) (now : Z)
    (u : uuid) (l o : option Z) (rows : list feed_row) :
  get_custom_ranked_feed numeric_in db now u l o = SqlOk rows →
  StronglySorted ranks_before rows.
Proof.
  unfold get_custom_ranked_feed. cbv zeta.
  destruct (joined db now u) as [js|]; [|discriminate].
  intros [= <-]. apply window_sorted, full_ordering_sorted.
Qed.

(** ** The score *)

(** C1: every row of a result carries
    [like_weight * like_count + comment_weight * comment_count
     + follower_weight * (1 if followed else 0) + recency_weight * recency_score]
    as its [final_score], for the weights loaded for the requester; under
    the default weights a row with 3 likes, no comment, an author who is
    not followed and recency 0.5 scores 3.5, a row with 1 like, no comment,
    a followed author and recency 1 scores 3, and the first stands before
    the second in the result. *)
Theorem custom_final_score (numeric_in : string → option Q) (db : database) (now : Z)
    (u : uuid) (l o : option Z) (rows : list feed_row)
    (Hfeed : get_custom_ranked_feed numeric_in db now u l o = SqlOk rows) :
  let w := load_weights numeric_in db u in
  (∀ r, r ∈ rows →
     (final_score r ==
        like_weight w * inject_Z (like_count (columns r))
        + comment_weight w * inject_Z (comment_count (columns r))
        + follower_weight w * (if is_from_followed (columns r) then 1 else 0)
        + recency_weight w * recency_score (columns r))%Q)
  ∧ (w = default_weights →
     ∀ r1 r2, r1 ∈ rows → r2 ∈ rows →
       like_count (columns r1) = 3 → comment_count (columns r1) = 0 →
       is_from_followed (columns r1) = false →
       (recency_score (columns r1) == 1 # 2)%Q →
       like_count (columns r2) = 1 → comment_count (columns r2) = 0 →
       is_from_followed (columns r2) = true →
       (recency_score (columns r2) == 1)%Q →
       (final_score r1 == 7 # 2)%Q ∧ (final_score r2 == 3)%Q
       ∧ ∃ before between after, rows = before ++ r1 :: between ++ r2 :: after).
Proof.
  intros w.
  assert (Hscore : ∀ r, r ∈ rows → final_score r = score w (columns r)).
  { intros r Hr.
    by destruct (feed_row_origin _ _ _ _ _ _ _ _ Hfeed Hr) as (? & ? & _ & _ & _ & _ & _ & ?). }
  split.
  - intros r Hr. rewrite (Hscore r Hr). reflexivity.
  - intros Hw r1 r2 H1 H2 Hl1 Hc1 Hf1 Hr1 Hl2 Hc2 Hf2 Hr2.
    assert (S1 : (final_score r1 == 7 # 2)%Q).
    { rewrite (Hscore r1 H1), Hw. unfold score. rewrite Hl1, Hc1, Hf1, Hr1. reflexivity. }
    assert (S2 : (final_score r2 == 3)%Q).
    { rewrite (Hscore r2 H2), Hw. unfold score. rewrite Hl2, Hc2, Hf2, Hr2. reflexivity. }
    repeat split; [done..|].
    apply (sorted_precedes ranks_before); [by eapply feed_sorted|done..| |].
    + rewrite ranks_before_spec. intros [H|[H _]]; lra.
    + rewrite ranks_before_spec. right. split; [reflexivity | lia].
Qed.

Lemma custom_final_score_witness :
  ∃ r1 r2,
    get_custom_ranked_feed Sample.digits_in Sample.two_posts Sample.evaluation_instant
      7%N (Some 20) (Some 0) = SqlOk [r1; r2]
    ∧ post_ids [r1; r2] = [1%N; 2%N]
    ∧ (recency_score (columns r1) == 1 # 2)%Q ∧ (final_score r1 == 7 # 2)%Q
    ∧ (recency_score (columns r2) == 1)%Q ∧ (final_score r2 == 3)%Q.
Proof.
  eexists _, _. split; [vm_compute; reflexivity|].
  match goal with |- context [post_ids [?a; ?b]] => set (r1 := a); set (r2 := b) end.
  assert (Hfeed : get_custom_ranked_feed Sample.digits_in Sample.two_posts
                    Sample.evaluation_instant 7%N (Some 20) (Some 0) = SqlOk [r1; r2])
    by (vm_compute; reflexivity).
  destruct (custom_final_score _ _ _ _ _ _ _ Hfeed) as [_ Hscenario].
  destruct (Hscenario eq_refl r1 r2) as (S1 & S2 & _);
    try reflexivity; [by left | by right; left |].
  repeat split; done.
Defined.

(** ** The recency feature *)

Lemma inverse_decreasing (d1 d2 : Q) :
  (0 < d1)%Q → (d1 < d2)%Q → (1 / d2 < 1 / d1)%Q.
Proof.
  intros H1 H2. apply Qlt_shift_div_r; [lra|].
  assert (E : (1 / d1 * d2 == d2 / d1)%Q) by (field; lra).
  rewrite E. apply Qlt_shift_div_l; lra.
Qed.




(** ** Ordering and pages *)

Lemma StronglySorted_weaken {A} (R R' : relation A) (l : list A) :
  (∀ x y, R x y → R' x y) → StronglySorted R l → StronglySorted R' l.
Proof.
  intros HR. induction 1 as [|x l _ IH Hx]; constructor; [done|].
  eapply Forall_impl; eauto.
Qed.

Lemma NoDup_fmap_inj_on {A B} (f : A → B) (l : list A) (x y : A) :
  NoDup (f <$> l) → x ∈ l → y ∈ l → f x = f y → x = y.
Proof.
  induction l as [|a l IH]; intros Hnd Hx Hy E.
  - by apply elem_of_nil in Hx.
  - rewrite fmap_cons in Hnd. apply NoDup_cons in Hnd as [Hn Hnd].
    apply elem_of_cons in Hx as [->|Hx]; apply elem_of_cons in Hy as [->|Hy].
    + done.
    + exfalso. apply Hn. rewrite E. apply list_elem_of_fmap; eauto.
    + exfalso. apply Hn. rewrite <- E. apply list_elem_of_fmap; eauto.
    + by apply IH.
Qed.

Lemma post_ids_full_ordering (db : database) (now : Z) (u : uuid) (w : weights)
    (js : list joined_row) :
  joined db now u = Some js →
  post_ids (full_ordering w js) ≡ₚ post_id <$> posts db.
Proof.
  intros Hj. unfold post_ids. rewrite full_ordering_perm.
  rewrite <- (joined_bases _ _ _ _ Hj), <- !list_fmap_compose. reflexivity.
Qed.




(** ** Weights *)



End Ordering.

(** * Page sizes *)

Lemma integer_of_inject_Z (q : Q) (z : Z) :
  (q == inject_Z z)%Q → integer_of (Num q) = Some z.
Proof.
  intros E. unfold integer_of.
  rewrite (Qred_complete _ _ E), Qcanon.Qred_identity; [reflexivity|].
  simpl. apply Z.gcd_1_r.
Qed.

Lemma feed_length (cast : string → option Q) (db : database) (now : Z) (u : uuid)
    (l o : option Z) (rows : list Sql.feed_row) :
  Sql.get_custom_ranked_feed cast db now u l o = Sql.SqlOk rows →
  Z.of_nat (length rows) ≤ Sql.greatest0 l.
Proof.
  unfold Sql.get_custom_ranked_feed. cbv zeta.
  destruct (Sql.joined db now u); [|discriminate].
  intros [= <-]. apply window_length.
Qed.

Lemma custom_page_length (w : world) (userId : uuid) (L : Z) (offset : jsnum)
    (rows : list Sql.feed_row) (tag : string) :
  0 ≤ L →
  payload (result (run_custom w userId (Num (inject_Z L)) offset))
    = Page (CustomRows rows) tag →
  Z.of_nat (length rows) ≤ L.
Proof.
  intros HL. unfold run_custom, rpc_get_custom_ranked_feed.
  destruct (rpc_fault w); [run_writer; discriminate|].
  unfold rpc_integer at 1. rewrite (integer_of_inject_Z _ L) by reflexivity.
  destruct ((-2147483648 <=? L) && (L <=? 2147483647)); [|run_writer; discriminate].
  destruct (rpc_integer offset) as [p_offset|]; [|run_writer; discriminate].
  destruct (Sql.get_custom_ranked_feed _ _ _ _ _ _) as [data|] eqn:Hfeed;
    [|run_writer; discriminate].
  run_writer. intros [= <- _]. apply feed_length in Hfeed. simpl in Hfeed. lia.
Qed.

Lemma chronological_page_length (w : world) (L O : Z)
    (rows : list chrono_row) (tag : string) :
  0 ≤ L → 0 ≤ O →
  payload (result (run_chronological w (Num (inject_Z L)) (Num (inject_Z O))))
    = Page (ChronoRows rows) tag →
  Z.of_nat (length rows) ≤ Z.max L 1.
Proof.
  intros HL HO. unfold run_chronological, select_posts.
  destruct (posts_fault w); [run_writer; discriminate|].
  rewrite (integer_of_inject_Z _ O) by reflexivity.
  assert (Hto : integer_of (math_max (js_sub (js_add (Num (inject_Z O)) (Num (inject_Z L)))
                                             (Num 1)) (Num (inject_Z O)))
                = Some (Z.max (O + L - 1) O)).
  { unfold js_add, js_sub, math_max.
    assert (E : (inject_Z O + inject_Z L - 1 == inject_Z (O + L - 1))%Q).
    { unfold Z.sub. rewrite !inject_Z_plus. reflexivity. }
    destruct (Qle_bool _ _) eqn:Hle.
    - apply integer_of_inject_Z. apply Qle_bool_iff in Hle.
      rewrite E, <- Zle_Qle in Hle. by rewrite Z.max_r.
    - apply integer_of_inject_Z. rewrite E.
      destruct (Z.le_gt_cases (O + L - 1) O) as [H|H].
      + exfalso. rewrite Zle_Qle, <- E in H.
        apply Qle_bool_iff in H. congruence.
      + rewrite Z.max_l by lia. reflexivity. }
  rewrite Hto.
  assert (Hrange : (0 <=? O) && (O <=? Z.max (O + L - 1) O) = true)
    by (apply andb_true_iff; split; apply Z.leb_le; lia).
  rewrite Hrange. run_writer. intros [= <- _].
  rewrite length_take. lia.
Qed.

(** C5 (as amended): for a limit [L >= 0] the custom strategy returns at
    most [L] rows, and for [L >= 1] so does the chronological strategy; a
    third-party page is the body the endpoint sent for the forwarded
    window, whatever its size; the window the handler computes is never
    negative, and the SQL function treats a negative [p_limit] or
    [p_offset] as zero. *)
Theorem strategies_respect_limit (w : world) (userId : uuid) (L O : Z)
    (HL : 0 ≤ L) (HO : 0 ≤ O) :
  (∀ rows tag,
     payload (result (run_custom w userId (Num (inject_Z L)) (Num (inject_Z O))))
       = Page (CustomRows rows) tag →
     Z.of_nat (length rows) ≤ L)
  ∧ (1 ≤ L → ∀ rows tag,
       payload (result (run_chronological w (Num (inject_Z L)) (Num (inject_Z O))))
         = Page (ChronoRows rows) tag →
       Z.of_nat (length rows) ≤ L)
  ∧ (∀ authHeader preferences posts tag,
       payload (result (run_third_party w userId (Num (inject_Z L)) (Num (inject_Z O))
                          authHeader preferences))
         = Page posts tag →
       ∃ call st data,
         fetch w call = FetchResponds st (Some data) ∧ posts = Passthrough data
         ∧ param_limit call = Num (inject_Z L) ∧ param_offset call = Num (inject_Z O))
  ∧ (∀ req q, (page_window req).1 = Num q ∨ (page_window req).2 = Num q → (0 <= q)%Q)
  ∧ (∀ q, (q < 0)%Q → math_max (Num q) (Num 0) = Num 0)
  ∧ (∀ cast db now u l o,
       Sql.get_custom_ranked_feed cast db now u (Some l) (Some o)
       = Sql.get_custom_ranked_feed cast db now u (Some (Z.max l 0)) (Some (Z.max o 0))).
Proof.
  split; [|split; [|split; [|split; [|split]]]].
  - intros rows tag. by apply custom_page_length.
  - intros H1 rows tag Hpage.
    pose proof (chronological_page_length w L O rows tag HL HO Hpage). lia.
  - intros authHeader preferences posts tag. unfold run_third_party.
    destruct (truthy _); [|run_writer; discriminate].
    destruct (parse_url w _) as [href|]; [|run_writer; discriminate].
    destruct (fetch w _) as [|st [data|]] eqn:Hfetch;
      [| destruct (http_ok st) ..]; run_writer; try discriminate.
    intros [= <- _]. by eexists _, st, data.
  - intros req q. unfold page_window, body_window, query_window.
    destruct (String.eqb (method req) "GET");
      [|destruct (body req) as [b|];
        [destruct (number_field b "limit"), (number_field b "offset")|]];
      cbn [fst snd]; intros [H|H]; by apply math_max_zero_nonneg in H.
  - apply math_max_zero_of_neg.
  - intros cast db now u l o. unfold Sql.get_custom_ranked_feed, Sql.window, Sql.greatest0.
    by rewrite !(Z.max_l (Z.max _ 0) 0) by lia.
Qed.

Lemma strategies_respect_limit_witness :
  let w := Sample.world_of Sample.two_posts FetchRejects in
  ∃ ranked newest,
    result (run_custom w 7%N (Num 1) (Num 0))
      = json_response (Page (CustomRows ranked) "custom") 200
    ∧ result (run_chronological w (Num 1) (Num 0))
        = json_response (Page (ChronoRows newest) "chronological") 200
    ∧ Z.of_nat (length ranked) ≤ 1 ∧ Z.of_nat (length newest) ≤ 1
    ∧ page_window (Sample.get_request [("limit", "-5"); ("offset", "-1")] None)
      = (Num 0, Num 0).
Proof.
  intros w.
  destruct (strategies_respect_limit w 7%N 1 0 ltac:(lia) ltac:(lia))
    as (Hcustom & Hchrono & _ & _ & Hclamp & _).
  eexists _, _. split; [vm_compute; reflexivity|].
  split; [vm_compute; reflexivity|].
  split; [|split].
  - eapply Hcustom. vm_compute. reflexivity.
  - eapply Hchrono; [lia|]. vm_compute. reflexivity.
  - unfold page_window, body_window, query_window. cbn [Sample.get_request method].
    change (parseInt (default "20" (assoc "limit" (search_params _))))
      with (Num (-5)).
    change (parseInt (default "0" (assoc "offset" (search_params _))))
      with (Num (-1)).
    rewrite !Hclamp by reflexivity. reflexivity.
Defined.

(** C5, the claim as stated fails: with [limit=0] the chronological
    strategy returns one post; and a third-party endpoint asked for one
    item may send three, which are passed on. *)
Lemma page_longer_than_limit :
  (∃ row,
     handler (Sample.world_of Sample.two_posts FetchRejects)
       (Sample.get_request [("limit", "0")] None)
     = ([], Responded (json_response (Page (ChronoRows [row]) "chronological") 200)))
  ∧ ∃ call,
      handler (Sample.world_of
                 (Sample.with_preferences Sample.two_posts 7
                    (Sample.third_party_prefs (JString "https://scorer.example/rank")))
                 (FetchResponds 200 (Some (JArray [JString "a"; JString "b"; JString "c"]))))
        (Sample.get_request [("limit", "1")] None)
      = ([NetworkCall call],
         Responded (json_response
                      (Page (Passthrough (JArray [JString "a"; JString "b"; JString "c"]))
                         "third_party") 200))
      ∧ param_limit call = Num 1.
Proof.
  split.
  - eexists. vm_compute. reflexivity.
  - eexists. split; [vm_compute; reflexivity | reflexivity].
Qed.

(** * The handler on every path *)

Section Handler.

(** What the three strategies can answer. *)
Lemma run_strategy_classes (w : world) (s : strategy) (userId : uuid)
    (limit offset : jsnum) (authHeader : string) (preferences : json) :
  let r := result (run_strategy w s userId limit offset authHeader preferences) in
  match payload r with
  | Page posts tag =>
      status r = 200 ∧ tag = strategy_name s
      ∧ match s, posts with
        | custom, CustomRows _ | third_party, Passthrough _
        | chronological, ChronoRows _ => True
        | _, _ => False
        end
  | Failure e details upstream =>
      match s with
      | custom => status r = 500 ∧ e = "ranking_failed" ∧ is_Some details
      | chronological => status r = 500 ∧ e = "chronological_failed" ∧ is_Some details
      | third_party =>
          (status r = 400 ∧ e = "missing_third_party_endpoint")
          ∨ (status r = 502 ∧ e = "third_party_failed"
             ∧ ∃ st, upstream = Some st ∧ http_ok st = false)
          ∨ (status r = 500 ∧ e = "third_party_exception")
      end
  end.
Proof.
  destruct s; simpl.
  - unfold run_custom. destruct (rpc_get_custom_ranked_feed _ _ _ _); run_writer; eauto.
  - unfold run_third_party.
    destruct (truthy _); [|run_writer; auto].
    destruct (parse_url w _); [|run_writer; auto].
    destruct (fetch w _) as [|st [data|]]; [| destruct (http_ok st) eqn:? ..];
      run_writer; eauto 10.
  - unfold run_chronological. destruct (select_posts _ _ _); run_writer; eauto.
Qed.

Lemma handler_unfold (w : world) (req : request) (userId : uuid) :
  get_user w (default "" (authorization req)) = Some userId →
  let prefs := result (read_preferences w userId) in
  match exec (algorithm_id w prefs) with
  | OwnStrategy s =>
      result (handler w req)
      = Responded (result (run_strategy w s userId (page_window req).1 (page_window req).2
                             (default "" (authorization req)) prefs))
      ∧ trace (handler w req)
        = trace (read_preferences w userId)
          ++ trace (run_strategy w s userId (page_window req).1 (page_window req).2
                      (default "" (authorization req)) prefs)
  | InheritedReturns =>
      result (handler w req) = NotAResponse
      ∧ trace (handler w req) = trace (read_preferences w userId)
  | InheritedThrows =>
      result (handler w req)
      = Responded (json_response (Failure "internal_server_error" None None) 500)
      ∧ trace (handler w req)
        = trace (read_preferences w userId) ++ [ConsoleError "uncaught exception"]
  end.
Proof.
  intros Hu prefs. subst prefs. unfold handler.
  destruct (page_window req) as [limit offset]. rewrite Hu.
  destruct (read_preferences w userId) as [t prefs]. run_writer.
  destruct (exec (algorithm_id w prefs)) as [s| |]; run_writer.
  - destruct (run_strategy _ _ _ _ _ _ _) as [t' r]. simpl.
    by rewrite app_nil_r.
  - by rewrite app_nil_r.
  - done.
Qed.

Lemma handler_without_user (w : world) (req : request) :
  get_user w (default "" (authorization req)) = None →
  handler w req = ([], Responded (json_response (Failure "Unauthorized" None None) 401)).
Proof. intros Hu. unfold handler. destruct (page_window req). by rewrite Hu. Qed.

Lemma read_preferences_trace (w : world) (userId : uuid) :
  filter (λ e, is_network_call e = true) (trace (read_preferences w userId)) = [].
Proof. unfold read_preferences. by destruct (preferences_fault w). Qed.

(** X1: whatever the request, a page is answered with status 200 and one
    of the three strategy names, and a failure with 401 [Unauthorized],
    400 [missing_third_party_endpoint], 502 [third_party_failed] or 500
    with one of four error names; the handler resolves to something that
    is not a response only when the algorithm id names a member inherited
    from [Object.prototype]. *)
Theorem response_classes (w : world) (req : request) :
  match result (handler w req) with
  | Responded r =>
      match payload r with
      | Page posts tag =>
          status r = 200 ∧ tag ∈ ["custom"; "third_party"; "chronological"]
      | Failure e details upstream =>
          (status r = 401 ∧ e = "Unauthorized")
          ∨ (status r = 400 ∧ e = "missing_third_party_endpoint")
          ∨ (status r = 502 ∧ e = "third_party_failed" ∧ is_Some upstream)
          ∨ (status r = 500
             ∧ e ∈ ["ranking_failed"; "third_party_exception"; "chronological_failed";
                    "internal_server_error"])
      end
  | NotAResponse =>
      ∃ userId, get_user w (default "" (authorization req)) = Some userId
                ∧ exec (algorithm_id w (result (read_preferences w userId)))
                  = InheritedReturns
  end.
Proof.
  destruct (get_user w (default "" (authorization req))) as [userId|] eqn:Hu.
  - pose proof (handler_unfold w req userId Hu) as H. cbv zeta in H.
    destruct (exec _) as [s| |] eqn:He.
    + destruct H as [-> _].
      pose proof (run_strategy_classes w s userId (page_window req).1 (page_window req).2
                    (default "" (authorization req)) (result (read_preferences w userId))) as Hc.
      cbv zeta in Hc. destruct (payload _) as [posts tag|e details upstream].
      * destruct Hc as (-> & -> & _). split; [done|]. destruct s; set_solver.
      * destruct s.
        -- destruct Hc as (-> & -> & _). do 3 right. split; [done | set_solver].
        -- destruct Hc as [[-> ->]|[(-> & -> & st & -> & _)|[-> ->]]].
           ++ right. left. done.
           ++ do 2 right. left. eauto.
           ++ do 3 right. split; [done | set_solver].
        -- destruct Hc as (-> & -> & _). do 3 right. split; [done | set_solver].
    + destruct H as [-> _]. eauto.
    + destruct H as [-> _]. simpl. do 3 right. split; [done | set_solver].
  - unfold handler. destruct (page_window req). rewrite Hu. simpl. left. done.
Qed.

(** X2: status 401 is answered exactly when no user is identified, and
    then nothing is logged and no call is issued, whatever the window,
    the stored preferences or the faults of the world. *)
Theorem unauthorized_exactly_without_user (w : world) (req : request) :
  ((∃ r, result (handler w req) = Responded r ∧ status r = 401)
   ↔ get_user w (default "" (authorization req)) = None)
  ∧ (get_user w (default "" (authorization req)) = None →
     handler w req = ([], Responded (json_response (Failure "Unauthorized" None None) 401))).
Proof.
  pose proof (handler_without_user w req) as Hnone.
  split; [split|done].
  - intros (r & Hr & Hst).
    destruct (get_user w (default "" (authorization req))) as [userId|] eqn:Hu; [|done].
    exfalso. pose proof (handler_unfold w req userId Hu) as H. cbv zeta in H.
    destruct (exec _) as [s| |].
    + destruct H as [H _]. rewrite H in Hr. injection Hr as <-.
      pose proof (run_strategy_classes w s userId (page_window req).1 (page_window req).2
                    (default "" (authorization req)) (result (read_preferences w userId))) as Hc.
      cbv zeta in Hc. destruct (payload _).
      * destruct Hc as (Hc & _). congruence.
      * destruct s; [destruct Hc as (Hc & _); congruence | | destruct Hc as (Hc & _); congruence].
        destruct Hc as [[Hc _]|[(Hc & _)|[Hc _]]]; congruence.
    + destruct H as [H _]. congruence.
    + destruct H as [H _]. rewrite H in Hr. injection Hr as <-. discriminate.
  - intros Hu. rewrite (Hnone Hu). eauto.
Qed.

Lemma unauthorized_exactly_without_user_witness :
  handler (Sample.world_of Sample.two_posts FetchRejects)
    {| method := "POST"; search_params := [("limit", "5")]; body := None;
       authorization := Some "Bearer forged" |}
  = ([], Responded (json_response (Failure "Unauthorized" None None) 401)).
Proof.
  apply (proj2 (unauthorized_exactly_without_user _ _)). reflexivity.
Defined.

Lemma run_strategy_calls (w : world) (s : strategy) (userId : uuid)
    (limit offset : jsnum) (authHeader : string) (preferences : json) :
  let m := run_strategy w s userId limit offset authHeader preferences in
  let endpoint := nullish_or (json_get preferences "third_party_endpoint") (JString "") in
  filter (λ e, is_network_call e = true) (trace m) = []
  ∨ (s = third_party
     ∧ ∃ href, parse_url w (as_string w endpoint) = Some href
               ∧ filter (λ e, is_network_call e = true) (trace m)
                 = [NetworkCall {| endpoint_href := href; param_user_id := userId;
                                   param_limit := limit; param_offset := offset;
                                   forwarded_authorization := authHeader |}]).
Proof.
  destruct s; simpl.
  - left. unfold run_custom. by destruct (rpc_get_custom_ranked_feed _ _ _ _).
  - unfold run_third_party.
    destruct (truthy _); [|by left].
    destruct (parse_url w _) as [href|]; [|by left].
    right. split; [done|]. exists href. split; [done|].
    destruct (fetch w _) as [|st [data|]]; [| destruct (http_ok st) ..]; reflexivity.
  - left. unfold run_chronological. by destruct (select_posts _ _ _).
Qed.

(** X3: the handler issues at most one outbound call, and only when the
    stored algorithm id dispatches to the third-party strategy and the
    stored endpoint parses; the call carries the parsed endpoint, the
    caller's user id, the page window of the request and the caller's
    [Authorization] header unchanged. *)
Theorem network_call_provenance (w : world) (req : request) :
  (network_calls (handler w req) ≤ 1)%nat
  ∧ ∀ call, NetworkCall call ∈ trace (handler w req) →
      ∃ userId,
        get_user w (default "" (authorization req)) = Some userId
        ∧ let prefs := result (read_preferences w userId) in
          let endpoint := nullish_or (json_get prefs "third_party_endpoint") (JString "") in
          exec (algorithm_id w prefs) = OwnStrategy third_party
          ∧ parse_url w (as_string w endpoint) = Some (endpoint_href call)
          ∧ param_user_id call = userId
          ∧ param_limit call = (page_window req).1
          ∧ param_offset call = (page_window req).2
          ∧ forwarded_authorization call = default "" (authorization req).
Proof.
  assert (Hin : ∀ call (t : list event), NetworkCall call ∈ t →
            NetworkCall call ∈ filter (λ e, is_network_call e = true) t).
  { intros call t Hc. by apply list_elem_of_filter. }
  unfold network_calls.
  destruct (get_user w (default "" (authorization req))) as [userId|] eqn:Hu.
  2:{ rewrite (handler_without_user w req Hu). simpl.
      split; [lia|]. intros call H. by apply elem_of_nil in H. }
  pose proof (handler_unfold w req userId Hu) as H. cbv zeta in H.
  destruct (exec _) as [s| |] eqn:He.
  - destruct H as [_ Ht].
    pose proof (run_strategy_calls w s userId (page_window req).1 (page_window req).2
                  (default "" (authorization req)) (result (read_preferences w userId))) as Hc.
    cbv zeta in Hc.
    assert (Hf : filter (λ e, is_network_call e = true) (trace (handler w req))
                 = filter (λ e, is_network_call e = true)
                     (trace (run_strategy w s userId (page_window req).1 (page_window req).2
                               (default "" (authorization req))
                               (result (read_preferences w userId)))))
      by (by rewrite Ht, filter_app, read_preferences_trace).
    rewrite Hf. destruct Hc as [Hc|(-> & href & Hp & Hc)]; rewrite Hc.
    + split; [simpl; lia|]. intros call Hcall. apply Hin in Hcall.
      rewrite Hf, Hc in Hcall. by apply elem_of_nil in Hcall.
    + split; [simpl; lia|]. intros call Hcall. apply Hin in Hcall.
      rewrite Hf, Hc in Hcall. apply list_elem_of_singleton in Hcall as [= ->].
      exists userId. simpl. done.
  - destruct H as [_ Ht].
    assert (Hf : filter (λ e, is_network_call e = true) (trace (handler w req)) = [])
      by (by rewrite Ht, read_preferences_trace).
    rewrite Hf. split; [simpl; lia|]. intros call Hcall. apply Hin in Hcall.
    rewrite Hf in Hcall. by apply elem_of_nil in Hcall.
  - destruct H as [_ Ht].
    assert (Hf : filter (λ e, is_network_call e = true) (trace (handler w req)) = [])
      by (by rewrite Ht, filter_app, read_preferences_trace).
    rewrite Hf. split; [simpl; lia|]. intros call Hcall. apply Hin in Hcall.
    rewrite Hf in Hcall. by apply elem_of_nil in Hcall.
Qed.

Lemma network_call_provenance_witness :
  ∃ call,
    trace (handler (Sample.world_of
                      (Sample.with_preferences Sample.two_posts 7
                         (Sample.third_party_prefs (JString "https://scorer.example/rank")))
                      (FetchResponds 200 (Some (JArray []))))
             (Sample.post_request [] (Some (JObject [("limit", JNumber 5)]))))
    = [NetworkCall call]
    ∧ param_user_id call = 7%N ∧ param_limit call = Num 5
    ∧ forwarded_authorization call = Sample.bearer.
Proof.
  eexists. split; [vm_compute; reflexivity|].
  destruct (proj2 (network_call_provenance
              (Sample.world_of
                 (Sample.with_preferences Sample.two_posts 7
                    (Sample.third_party_prefs (JString "https://scorer.example/rank")))
                 (FetchResponds 200 (Some (JArray []))))
              (Sample.post_request [] (Some (JObject [("limit", JNumber 5)]))))
              _ ltac:(vm_compute; left))
    as (u & Hu & _ & _ & Hid & Hl & _ & Ha).
  vm_compute in Hu.
  split; [congruence | split; [exact Hl | exact Ha]].
Defined.

(** X4: a page the handler answers was produced by the strategy the
    stored algorithm id dispatches to: its tag is that strategy's name and
    its rows are of that strategy's kind. *)
Theorem page_matches_dispatch (w : world) (req : request) (r : response)
    (posts : posts_payload) (tag : string) :
  result (handler w req) = Responded r → payload r = Page posts tag →
  ∃ userId s,
    get_user w (default "" (authorization req)) = Some userId
    ∧ exec (algorithm_id w (result (read_preferences w userId))) = OwnStrategy s
    ∧ tag = strategy_name s
    ∧ match s, posts with
      | custom, CustomRows _ | third_party, Passthrough _
      | chronological, ChronoRows _ => True
      | _, _ => False
      end.
Proof.
  intros Hr Hp.
  destruct (get_user w (default "" (authorization req))) as [userId|] eqn:Hu.
  2:{ rewrite (handler_without_user w req Hu) in Hr.
      injection Hr as <-. discriminate. }
  pose proof (handler_unfold w req userId Hu) as H. cbv zeta in H.
  destruct (exec _) as [s| |] eqn:He.
  - destruct H as [H _]. rewrite H in Hr. injection Hr as <-.
    pose proof (run_strategy_classes w s userId (page_window req).1 (page_window req).2
                  (default "" (authorization req)) (result (read_preferences w userId))) as Hc.
    cbv zeta in Hc. rewrite Hp in Hc. destruct Hc as (_ & -> & Hkind).
    by exists userId, s.
  - destruct H as [H _]. congruence.
  - destruct H as [H _]. rewrite H in Hr. injection Hr as <-. discriminate.
Qed.

Lemma page_matches_dispatch_witness :
  ∃ r rows,
    result (handler (Sample.world_of
                       (Sample.with_preferences Sample.two_posts 7
                          (Sample.algorithm_prefs "custom")) FetchRejects)
              (Sample.get_request [] None)) = Responded r
    ∧ payload r = Page (CustomRows rows) "custom".
Proof.
  eexists _, _. split; [vm_compute; reflexivity|].
  match goal with |- payload ?r = Page ?p ?t =>
    destruct (page_matches_dispatch
                (Sample.world_of
                   (Sample.with_preferences Sample.two_posts 7
                      (Sample.algorithm_prefs "custom")) FetchRejects)
                (Sample.get_request [] None) r p t) as (u & s & _ & _ & _ & _)
  end; reflexivity.
Defined.

End Handler.

(** * The strategies at their edges *)

Section Strategies.

Lemma recency_undefined (now : Z) : Sql.recency now (now + 3600000000) = None.
Proof.
  unfold Sql.recency. cbv zeta.
  destruct (Qeq_bool _ 0) eqn:E; [done|]. exfalso.
  assert (H : (1 + Sql.hours_since_created now (now + 3600000000) == 0)%Q).
  { rewrite hours_since_created_alt.
    replace (now - (now + 3600000000)) with (-3600000000) by lia. reflexivity. }
  apply Qeq_bool_iff in H. congruence.
Qed.

Lemma joined_undefined (db : database) (now : Z) (u : uuid) :
  Exists (λ p, created_at p = now + 3600000000) (posts db) →
  Sql.joined db now u = None.
Proof.
  intros H. unfold Sql.joined. apply mapM_None.
  eapply Exists_impl; [exact H|]. intros p Hp. simpl in Hp.
  unfold Sql.join_post. by rewrite Hp, recency_undefined.
Qed.

(** X5: a single post dated exactly one hour after the evaluation
    instant makes the custom strategy fail for every requester and every
    window with a limit of at least one: the answer is 500
    [ranking_failed], logged once, and no row is returned. *)
Theorem custom_fails_when_a_post_is_one_hour_ahead (w : world) (userId : uuid) (L O : Z)
    (Hahead : Exists (λ p, created_at p = clock w + 3600000000) (posts (store w)))
    (HL : 1 ≤ L) :
  ∃ details,
    run_custom w userId (Num (inject_Z L)) (Num (inject_Z O))
    = ([ConsoleError "rpc error"],
       json_response (Failure "ranking_failed" (Some details) None) 500).
Proof.
  unfold run_custom, rpc_get_custom_ranked_feed.
  destruct (rpc_fault w) as [e|]; [by eexists|].
  destruct (rpc_integer (Num (inject_Z L))) as [p_limit|]; [|by eexists].
  destruct (rpc_integer (Num (inject_Z O))) as [p_offset|]; [|by eexists].
  unfold Sql.get_custom_ranked_feed. cbv zeta.
  rewrite (joined_undefined _ _ _ Hahead). by eexists.
Qed.

Lemma custom_fails_when_a_post_is_one_hour_ahead_witness :
  ∃ details,
    handler (Sample.world_of
               (Sample.with_preferences Scenario.one_hour_ahead 7
                  (Sample.algorithm_prefs "custom")) FetchRejects)
      (Sample.get_request [] None)
    = ([ConsoleError "rpc error"],
       Responded (json_response (Failure "ranking_failed" (Some details) None) 500)).
Proof.
  destruct (custom_fails_when_a_post_is_one_hour_ahead
              (Sample.world_of
                 (Sample.with_preferences Scenario.one_hour_ahead 7
                    (Sample.algorithm_prefs "custom")) FetchRejects) 7%N 20 0)
    as [details Hd].
  - apply (bool_decide_unpack _). vm_compute. exact I.
  - lia.
  - exists details. vm_compute in Hd. injection Hd as Hd. vm_compute. by rewrite Hd.
Defined.

#[local] Instance newest_first_trans : Transitive newest_first.
Proof. unfold newest_first. intros a b c ??. lia. Qed.

#[local] Instance newest_first_total : Total newest_first.
Proof. unfold newest_first. intros a b. lia. Qed.

Lemma chrono_post_ordering (db : database) :
  chrono_post <$> chronological_ordering db = merge_sort newest_first (posts db).
Proof.
  unfold chronological_ordering. rewrite <- list_fmap_compose.
  apply list_fmap_id.
Qed.

Lemma run_chronological_exact (w : world) (L O : Z) :
  0 ≤ L → 0 ≤ O → posts_fault w = None →
  run_chronological w (Num (inject_Z L)) (Num (inject_Z O))
  = ([], json_response
           (Page (ChronoRows (take (Z.to_nat (Z.max L 1))
                                (drop (Z.to_nat O) (chronological_ordering (store w)))))
              "chronological") 200).
Proof.
  intros HL HO Hok. unfold run_chronological, select_posts. rewrite Hok.
  rewrite (integer_of_inject_Z _ O) by reflexivity.
  assert (Hto : integer_of (math_max (js_sub (js_add (Num (inject_Z O)) (Num (inject_Z L)))
                                             (Num 1)) (Num (inject_Z O)))
                = Some (Z.max (O + L - 1) O)).
  { unfold js_add, js_sub, math_max.
    assert (E : (inject_Z O + inject_Z L - 1 == inject_Z (O + L - 1))%Q).
    { unfold Z.sub. rewrite !inject_Z_plus. reflexivity. }
    destruct (Qle_bool _ _) eqn:Hle.
    - apply integer_of_inject_Z. apply Qle_bool_iff in Hle.
      rewrite E, <- Zle_Qle in Hle. by rewrite Z.max_r.
    - apply integer_of_inject_Z. rewrite E.
      destruct (Z.le_gt_cases (O + L - 1) O) as [H|H].
      + exfalso. rewrite Zle_Qle, <- E in H.
        apply Qle_bool_iff in H. congruence.
      + rewrite Z.max_l by lia. reflexivity. }
  rewrite Hto.
  assert (Hrange : (0 <=? O) && (O <=? Z.max (O + L - 1) O) = true)
    by (apply andb_true_iff; split; apply Z.leb_le; lia).
  rewrite Hrange. run_writer.
  by replace (Z.max (O + L - 1) O - O + 1) with (Z.max L 1) by lia.
Qed.





End Strategies.

(** * The ranking function: counts, flags and attachments *)

Section Ranking.

Import Sql.

#[local] Existing Instance ranks_before_trans.
#[local] Existing Instance ranks_before_total.



(** X9: a row is flagged [is_from_followed] exactly when [follows]
    holds an edge from the requester to the author of the post; as the
    schema forbids following oneself, the requester's own posts are never
    flagged, and their score carries no follower term. *)
Theorem follow_flag (cast : string → option Q) (db : database) (now : Z) (u : uuid)
    (l o : option Z) (rows : list feed_row) (r : feed_row)
    (Hfeed : get_custom_ranked_feed cast db now u l o = SqlOk rows)
    (Hr : r ∈ rows) :
  (is_from_followed (columns r) = true
   ↔ ∃ f, f ∈ follows db ∧ follower_id f = u
          ∧ followed_id f = author_id (base (columns r)))
  ∧ (Schema.follows_self_follow db → author_id (base (columns r)) = u →
     is_from_followed (columns r) = false
     ∧ let w := load_weights cast db u in
       (final_score r ==
          like_weight w * inject_Z (like_count (columns r))
          + comment_weight w * inject_Z (comment_count (columns r))
          + recency_weight w * recency_score (columns r))%Q).
Proof.
  destruct (feed_row_origin _ _ _ _ _ _ _ _ Hfeed Hr)
    as (js & p & _ & _ & _ & _ & Hj & Hscore).
  apply join_post_spec in Hj as (Hb & _ & _ & Hf & _).
  assert (Hiff : is_from_followed (columns r) = true
                 ↔ ∃ f, f ∈ follows db ∧ follower_id f = u
                        ∧ followed_id f = author_id (base (columns r))).
  { rewrite Hf, Hb. unfold follows_author. rewrite existsb_exists. split.
    - intros (f & Hin & Hand). apply andb_true_iff in Hand as [H1 H2].
      apply N.eqb_eq in H1, H2. exists f. by rewrite <- list_elem_of_In in Hin.
    - intros (f & Hin & H1 & H2). exists f. rewrite <- list_elem_of_In. split; [done|].
      apply andb_true_iff. by rewrite !N.eqb_eq. }
  split; [exact Hiff|].
  intros Hself Hown.
  assert (Hflag : is_from_followed (columns r) = false).
  { destruct (is_from_followed (columns r)) eqn:E; [|done]. exfalso.
    destruct (proj1 Hiff eq_refl) as (f & Hin & H1 & H2).
    unfold Schema.follows_self_follow in Hself. rewrite Forall_forall in Hself.
    apply (Hself f Hin). congruence. }
  split; [exact Hflag|]. cbv zeta. rewrite Hscore. unfold score. rewrite Hflag. ring.
Qed.

Lemma follow_flag_witness :
  ∃ r1 r2 r3,
    get_custom_ranked_feed Sample.digits_in Scenario.with_media Sample.evaluation_instant
      7%N (Some 20) (Some 0) = SqlOk [r1; r2; r3]
    ∧ post_ids [r1; r2; r3] = [3; 2; 1]%N
    ∧ is_from_followed (columns r1) = true
    ∧ is_from_followed (columns r3) = false.
Proof.
  eexists _, _, _. split; [vm_compute; reflexivity|].
  match goal with |- context [post_ids [?a; ?b; ?c]] =>
    set (r1 := a); set (r2 := b); set (r3 := c) end.
  assert (Hfeed : get_custom_ranked_feed Sample.digits_in Scenario.with_media
                    Sample.evaluation_instant 7%N (Some 20) (Some 0) = SqlOk [r1; r2; r3])
    by (vm_compute; reflexivity).
  split; [reflexivity|]. split.
  - apply (proj1 (follow_flag _ _ _ _ _ _ _ r1 Hfeed ltac:(by left))).
    exists {| follower_id := 7; followed_id := 21 |}.
    split; [by left | split; reflexivity].
  - apply (proj2 (follow_flag _ _ _ _ _ _ _ r3 Hfeed ltac:(by right; right; left))).
    + apply (bool_decide_unpack _). vm_compute. exact I.
    + reflexivity.
Defined.

(** The fold of [pick_media] over any table. *)
Lemma pick_media_fold (ms : list media_row) (p : uuid) :
  match foldl (λ best m,
                 if N.eqb (media_post_id m) p then
                   match best with
                   | None => Some m
                   | Some b =>
                       if media_created_at b <? media_created_at m then Some m else Some b
                   end
                 else best) None ms with
  | None => Forall (λ m, media_post_id m ≠ p) ms
  | Some m =>
      m ∈ ms ∧ media_post_id m = p
      ∧ Forall (λ m', media_post_id m' = p → media_created_at m' ≤ media_created_at m) ms
  end.
Proof.
  induction ms as [|x ms IH] using rev_ind; [by constructor|].
  rewrite foldl_snoc.
  destruct (foldl _ None ms) as [b|].
  - destruct IH as (Hin & Hp & Hall).
    destruct (N.eqb (media_post_id x) p) eqn:E.
    + apply N.eqb_eq in E. destruct (media_created_at b <? media_created_at x) eqn:Hlt.
      * apply Z.ltb_lt in Hlt. split; [set_solver|]. split; [done|].
        apply Forall_app. split; [|by repeat constructor].
        eapply Forall_impl; [exact Hall|]. intros m' H ?. simpl in H. specialize (H ltac:(done)). lia.
      * apply Z.ltb_ge in Hlt. split; [set_solver|]. split; [done|].
        apply Forall_app. split; [done|]. by repeat constructor.
    + apply N.eqb_neq in E. split; [set_solver|]. split; [done|].
      apply Forall_app. split; [done|]. by repeat constructor.
  - destruct (N.eqb (media_post_id x) p) eqn:E.
    + apply N.eqb_eq in E. split; [set_solver|]. split; [done|].
      apply Forall_app. split; [|by repeat constructor].
      eapply Forall_impl; [exact IH|]. intros m' H ?. by simpl in H.
    + apply N.eqb_neq in E. apply Forall_app. split; [done|]. by repeat constructor.
Qed.

(** X10: the media columns of a row are those of one attachment of that
    post, none of whose attachments is more recent, and they are NULL only
    when the post has no attachment; under the two check constraints
    of [media] a row of type photo has a storage path and a row of type
    video a playback id. *)
Theorem selected_media (cast : string → option Q) (db : database) (now : Z) (u : uuid)
    (l o : option Z) (rows : list feed_row) (r : feed_row)
    (Hfeed : get_custom_ranked_feed cast db now u l o = SqlOk rows)
    (Hr : r ∈ rows) :
  match media_one (columns r) with
  | None => ∀ m, m ∈ media db → media_post_id m ≠ post_id (base (columns r))
  | Some m =>
      m ∈ media db ∧ media_post_id m = post_id (base (columns r))
      ∧ (∀ m', m' ∈ media db → media_post_id m' = post_id (base (columns r)) →
           media_created_at m' ≤ media_created_at m)
      ∧ (Schema.media_checks db →
         (media_kind m = photo → is_Some (storage_path m))
         ∧ (media_kind m = video → is_Some (mux_playback_id m)))
  end.
Proof.
  destruct (feed_row_origin _ _ _ _ _ _ _ _ Hfeed Hr)
    as (js & p & _ & _ & _ & _ & Hj & _).
  assert (Hm : media_one (columns r) = pick_media db (post_id (base (columns r)))).
  { unfold join_post in Hj. destruct (recency now (created_at p)); [|discriminate].
    simpl in Hj. injection Hj as Hj. by rewrite <- Hj. }
  rewrite Hm. unfold pick_media.
  pose proof (pick_media_fold (media db) (post_id (base (columns r)))) as H.
  destruct (foldl _ None (media db)) as [m|].
  - destruct H as (Hin & Hp & Hall). rewrite Forall_forall in Hall.
    repeat split; try done.
    + unfold Schema.media_checks in H. rewrite Forall_forall in H.
      destruct (H m Hin) as [[Hk|[_ Hs]] _]; intros Hkind; [done|].
      by destruct (storage_path m).
    + unfold Schema.media_checks in H. rewrite Forall_forall in H.
      destruct (H m Hin) as [_ [Hk|[_ Hs]]]; intros Hkind; [done|].
      by destruct (mux_playback_id m).
  - rewrite Forall_forall in H. exact H.
Qed.

Lemma selected_media_witness :
  ∃ r1 r2 r3,
    get_custom_ranked_feed Sample.digits_in Scenario.with_media Sample.evaluation_instant
      7%N (Some 20) (Some 0) = SqlOk [r1; r2; r3]
    ∧ media_one (columns r1) = None
    ∧ (storage_path <$> media_one (columns r3)) = Some (Some "7/new.jpg").
Proof.
  eexists _, _, _. split; [vm_compute; reflexivity|].
  match goal with |- media_one (columns ?a) = None ∧ (_ <$> media_one (columns ?c)) = _ =>
    set (r1 := a); set (r3 := c) end.
  split; [reflexivity|].
  match type of r1 with _ => idtac end.
  assert (Hfeed : ∃ r2, get_custom_ranked_feed Sample.digits_in Scenario.with_media
                          Sample.evaluation_instant 7%N (Some 20) (Some 0)
                        = SqlOk [r1; r2; r3])
    by (eexists; vm_compute; reflexivity).
  destruct Hfeed as [r2 Hfeed].
  pose proof (selected_media _ _ _ _ _ _ _ r3 Hfeed ltac:(by right; right; left)) as H.
  destruct (media_one (columns r3)) as [m|] eqn:Hm; [|discriminate Hm].
  destruct H as (_ & _ & _ & Hchecks).
  vm_compute in Hm. injection Hm as <-. reflexivity.
Defined.

(** X11: one more row in [likes] for a post raises the [like_count] of
    that post's row by one and its score by [like_weight], and changes no
    other column and no other row; when [like_weight] is not negative the
    post stays ahead of every post it was ahead of. *)
Theorem one_more_like (cast : string → option Q) (db : database) (now : Z) (u : uuid)
    (like : like_row) (b : post) (j : joined_row)
    (Hj : join_post db now u b = Some j) :
  let w := load_weights cast db u in
  let db' := Schema.with_like db like in
  load_weights cast db' u = w
  ∧ (post_id b ≠ like_post_id like → join_post db' now u b = Some j)
  ∧ (post_id b = like_post_id like →
     ∃ j', join_post db' now u b = Some j'
           ∧ like_count j' = like_count j + 1
           ∧ base j' = base j ∧ comment_count j' = comment_count j
           ∧ is_from_followed j' = is_from_followed j
           ∧ recency_score j' = recency_score j ∧ media_one j' = media_one j
           ∧ (score w j' == score w j + like_weight w)%Q
           ∧ ((0 <= like_weight w)%Q →
              ∀ other, post_id (base other) ≠ post_id b →
                ranks_before (select_row w j) (select_row w other) →
                ranks_before (select_row w j') (select_row w other))).
Proof.
  intros w db'. split; [reflexivity|].
  unfold join_post in *. destruct (recency now (created_at b)) as [rec|]; [|discriminate].
  simpl in *. injection Hj as <-.
  assert (Hcount : count_likes db' (post_id b)
                   = count_likes db (post_id b)
                     + (if decide (like_post_id like = post_id b) then 1 else 0)).
  { unfold count_likes, db'. simpl. rewrite filter_cons.
    destruct (decide (like_post_id like = post_id b)); simpl; lia. }
  split.
  - intros Hne. f_equal. f_equal. rewrite Hcount.
    destruct (decide (like_post_id like = post_id b)); [congruence | lia].
  - intros He. eexists. split; [reflexivity|]. simpl.
    assert (Hone : count_likes db' (post_id b) = count_likes db (post_id b) + 1).
    { rewrite Hcount. destruct (decide (like_post_id like = post_id b)); [lia | congruence]. }
    split; [exact Hone|].
    assert (Hc : count_comments db' (post_id b) = count_comments db (post_id b))
      by reflexivity.
    assert (Hf : follows_author db' u (author_id b) = follows_author db u (author_id b))
      by reflexivity.
    set (rest := (comment_weight w * inject_Z (count_comments db (post_id b))
                  + follower_weight w
                    * (if follows_author db u (author_id b) then 1 else 0)
                  + recency_weight w * rec)%Q).
    assert (Hold : ∀ m, (score w {| base := b; like_count := count_likes db (post_id b);
                                   comment_count := count_comments db (post_id b);
                                   is_from_followed := follows_author db u (author_id b);
                                   recency_score := rec; media_one := m |}
                         == like_weight w * inject_Z (count_likes db (post_id b)) + rest)%Q).
    { intros m. unfold score, rest. simpl. ring. }
    assert (Hnew : ∀ m, (score w {| base := b; like_count := count_likes db' (post_id b);
                                   comment_count := count_comments db' (post_id b);
                                   is_from_followed := follows_author db' u (author_id b);
                                   recency_score := rec; media_one := m |}
                         == like_weight w * inject_Z (count_likes db (post_id b)) + rest
                            + like_weight w)%Q).
    { intros m. unfold score, rest. simpl. rewrite Hone, Hc, Hf, inject_Z_plus.
      change (inject_Z 1) with 1%Q. ring. }
    repeat split.
    + rewrite Hnew, Hold. reflexivity.
    + intros Hw other Hother. rewrite !ranks_before_spec. simpl.
      rewrite Hnew, Hold.
      intros [H|[H T]]; [left; lra|].
      destruct (Qlt_le_dec 0 (like_weight w)) as [Hpos|Hzero]; [left; lra|].
      right. split; [lra | exact T].
Qed.

Lemma one_more_like_witness :
  let db := Sample.two_posts in
  let like := {| like_user_id := 12; like_post_id := 2 |} in
  ∃ j j',
    join_post db Sample.evaluation_instant 7%N
      {| post_id := 2; author_id := 21; text_content := Some "second";
         created_at := Sample.evaluation_instant |} = Some j
    ∧ join_post (Schema.with_like db like) Sample.evaluation_instant 7%N
        {| post_id := 2; author_id := 21; text_content := Some "second";
           created_at := Sample.evaluation_instant |} = Some j'
    ∧ like_count j = 1 ∧ like_count j' = 2.
Proof.
  intros db like. eexists _, _. split; [vm_compute; reflexivity|].
  match goal with |- _ ∧ like_count ?a = 1 ∧ _ => set (j := a) end.
  destruct (one_more_like Sample.digits_in db Sample.evaluation_instant 7%N like
              {| post_id := 2; author_id := 21; text_content := Some "second";
                 created_at := Sample.evaluation_instant |} j
              ltac:(vm_compute; reflexivity)) as (_ & _ & Hliked).
  destruct (Hliked eq_refl) as (j' & Hj' & Hcount & _).
  vm_compute in Hj'. injection Hj' as <-.
  split; [vm_compute; reflexivity|]. split; reflexivity.
Defined.

(** X12: the result for a requester reads of [user_feed_preferences]
    only that requester's record, and of the record only the four weight
    keys: another user's record, and any other key such as [algorithm_id]
    or [third_party_endpoint], changes nothing. *)
Theorem ranking_reads_only_own_weights (cast : string → option Q) (db : database)
    (now : Z) (u : uuid) (l o : option Z) :
  (∀ v prefs, v ≠ u →
     get_custom_ranked_feed cast (Sample.with_preferences db v prefs) now u l o
     = get_custom_ranked_feed cast db now u l o)
  ∧ (∀ prefs prefs',
       (∀ key, key ∈ ["like_weight"; "comment_weight"; "follower_weight"; "recency_weight"] →
          json_get prefs key = json_get prefs' key) →
       get_custom_ranked_feed cast (Sample.with_preferences db u prefs) now u l o
       = get_custom_ranked_feed cast (Sample.with_preferences db u prefs') now u l o).
Proof.
  split.
  - intros v prefs Hne. unfold get_custom_ranked_feed, load_weights. simpl.
    by rewrite lookup_insert_ne.
  - intros prefs prefs' Hsame.
    unfold get_custom_ranked_feed, load_weights. simpl.
    rewrite !lookup_insert_eq.
    unfold assign_weight, text_field_as_numeric.
    by rewrite !Hsame by set_solver.
Qed.

Lemma ranking_reads_only_own_weights_witness :
  get_custom_ranked_feed Sample.digits_in
    (Sample.with_preferences Sample.two_posts 7
       (JObject [("algorithm_id", JString "third_party"); ("like_weight", JNumber 2)]))
    Sample.evaluation_instant 7%N (Some 20) (Some 0)
  = get_custom_ranked_feed Sample.digits_in
      (Sample.with_preferences Sample.two_posts 7 (JObject [("like_weight", JNumber 2)]))
      Sample.evaluation_instant 7%N (Some 20) (Some 0).
Proof.
  apply (proj2 (ranking_reads_only_own_weights _ _ _ _ _ _)).
  intros key Hkey.
  repeat (apply elem_of_cons in Hkey as [->|Hkey]; [reflexivity|]).
  by apply elem_of_nil in Hkey.
Defined.

End Ranking.

(** * The feed screen against the handler *)

Section Screen.

Variable uuid_text : N → string.
Variable timestamptz_text : Z → string.

Lemma mapRow_chronological (c : chrono_row) :
  FeedScreen.mapRow (Wire.chrono_row_json uuid_text timestamptz_text c)
  = Some (Items.of_chronological uuid_text timestamptz_text c).
Proof.
  unfold FeedScreen.mapRow, Wire.chrono_row_json, Items.of_chronological.
  destruct (text_content (chrono_post c)); reflexivity.
Qed.

Lemma mapRow_custom (r : Sql.feed_row) :
  FeedScreen.mapRow (Wire.custom_row_json uuid_text timestamptz_text r)
  = Some (Items.of_custom uuid_text timestamptz_text r).
Proof.
  unfold FeedScreen.mapRow, Wire.custom_row_json, Items.of_custom.
  destruct (text_content (Sql.base (Sql.columns r)));
    destruct (Sql.media_one (Sql.columns r)) as [m|]; simpl;
    try destruct (mux_playback_id m); try destruct (storage_path m); reflexivity.
Qed.

Lemma mapRows_fmap {A} (f : A → json) (g : A → FeedScreen.FeedPost) (rows : list A) :
  (∀ x, FeedScreen.mapRow (f x) = Some (g x)) →
  FeedScreen.mapRows (f <$> rows) = Some (g <$> rows).
Proof.
  intros H. unfold FeedScreen.mapRows. apply mapM_Some.
  induction rows as [|x rows IH]; [constructor|].
  rewrite !fmap_cons. constructor; [apply H | exact IH].
Qed.

Lemma math_max_inject_Z (z : Z) : 0 ≤ z → math_max (Num (inject_Z z)) (Num 0) = Num (inject_Z z).
Proof.
  intros Hz. unfold math_max. destruct (Qle_bool (inject_Z z) 0) eqn:E; [|done].
  apply Qle_bool_iff in E. change 0%Q with (inject_Z 0) in E.
  rewrite <- Zle_Qle in E. by replace z with 0 by lia.
Qed.

(** The window the handler computes for a request of the screen. *)
Lemma screen_request_window (auth : option string) (reset : bool) (s : FeedScreen.state) :
  0 ≤ FeedScreen.offset s →
  page_window {| method := "POST"; search_params := [];
                 body := Some (FeedScreen.request_body reset s); authorization := auth |}
  = (Num (inject_Z 10),
     Num (inject_Z (if reset then 0 else FeedScreen.offset s))).
Proof.
  intros Ho. unfold page_window, body_window, query_window, FeedScreen.request_body. simpl.
  unfold number_field. simpl. f_equal.
  apply math_max_inject_Z. destruct reset; [done | exact Ho].
Qed.

Lemma invoke_chronological (w : world) (auth : option string) (userId : uuid)
    (reset : bool) (s : FeedScreen.state) :
  get_user w (default "" auth) = Some userId →
  exec (algorithm_id w (result (read_preferences w userId))) = OwnStrategy chronological →
  posts_fault w = None →
  0 ≤ FeedScreen.offset s →
  FeedScreen.invoke_get_feed uuid_text timestamptz_text w auth
    (FeedScreen.request_body reset s)
  = FeedScreen.InvokeData
      (JObject [("posts",
                 JArray (Wire.chrono_row_json uuid_text timestamptz_text <$>
                           take 10 (drop (Z.to_nat (if reset then 0 else FeedScreen.offset s))
                                      (chronological_ordering (store w)))));
                ("algorithm", JString "chronological")]).
Proof.
  intros Hu He Hok Ho. unfold FeedScreen.invoke_get_feed.
  pose proof (handler_unfold w
                {| method := "POST"; search_params := [];
                   body := Some (FeedScreen.request_body reset s); authorization := auth |}
                userId Hu) as H.
  cbv zeta in H. rewrite He in H. destruct H as [-> _].
  rewrite (screen_request_window auth reset s Ho). simpl.
  rewrite run_chronological_exact; [reflexivity | lia | | done].
  destruct reset; [done | exact Ho].
Qed.


End Screen.


(** * What the feed screen shows *)

Section Rendering.

Variable uuid_text : N → string.
Variable timestamptz_text : Z → string.
Variable to_text : json → string.

Lemma shown_chronological (c : chrono_row) :
  FeedScreen.PostItem to_text (Items.of_chronological uuid_text timestamptz_text c)
  = Items.shown (head (attachments c)).
Proof.
  unfold FeedScreen.PostItem, Items.of_chronological, FeedScreen.first_media.
  destruct (attachments c) as [|m ms]; [reflexivity|]. simpl.
  unfold Items.shown.
  destruct (media_kind m), (mux_playback_id m) as [pb|], (storage_path m) as [sp|];
    simpl; try reflexivity.
  all: try (destruct (String.eqb sp ""); reflexivity).
  all: destruct (String.eqb pb ""); reflexivity.
Qed.

Lemma shown_custom (r : Sql.feed_row) :
  FeedScreen.PostItem to_text (Items.of_custom uuid_text timestamptz_text r)
  = Items.shown (Sql.media_one (Sql.columns r)).
Proof.
  unfold FeedScreen.PostItem, Items.of_custom, FeedScreen.first_media.
  destruct (Sql.media_one (Sql.columns r)) as [m|]; [|reflexivity]. simpl.
  unfold Items.shown.
  destruct (media_kind m), (mux_playback_id m) as [pb|], (storage_path m) as [sp|];
    simpl; try reflexivity.
  all: try (destruct (String.eqb sp ""); reflexivity).
  all: destruct (String.eqb pb ""); reflexivity.
Qed.

Lemma pick_media_single (db : database) (p : uuid) :
  (length (filter (λ m, media_post_id m = p) (media db)) ≤ 1)%nat →
  Sql.pick_media db p = head (filter (λ m, media_post_id m = p) (media db)).
Proof.
  intros Hone. unfold Sql.pick_media.
  pose proof (pick_media_fold (media db) p) as H.
  destruct (foldl _ None (media db)) as [m|].
  - destruct H as (Hin & Hp & _).
    assert (Hm : m ∈ filter (λ m, media_post_id m = p) (media db))
      by (by apply list_elem_of_filter).
    destruct (filter _ (media db)) as [|x [|y rest]]; simpl in *.
    + by apply elem_of_nil in Hm.
    + by apply list_elem_of_singleton in Hm as ->.
    + lia.
  - destruct (filter _ (media db)) as [|x rest] eqn:E; [done|]. exfalso.
    assert (Hx : x ∈ filter (λ m, media_post_id m = p) (media db))
      by (rewrite E; by left).
    apply list_elem_of_filter in Hx as [Hp Hin].
    rewrite Forall_forall in H. by apply (H x Hin).
Qed.

(** X14: the screen gives a post the same key whichever store-backed
    strategy served it; for a chronological row it shows the first
    embedded attachment and for a custom row the one the ranking selected,
    a video by its playback id, a photo by its storage path, and "No
    media" when that reference is missing or empty; for a post with at
    most one attachment the two strategies are shown alike. *)
Theorem rendering_of_served_rows (db : database) (now : Z) (u : uuid) (w : Sql.weights)
    (p : post) (j : Sql.joined_row)
    (Hj : Sql.join_post db now u p = Some j) :
  let custom_row := Sql.select_row w j in
  let chrono_row := embed_media db p in
  ∃ custom_item chrono_item,
    FeedScreen.mapRow (Wire.custom_row_json uuid_text timestamptz_text custom_row)
      = Some custom_item
    ∧ FeedScreen.mapRow (Wire.chrono_row_json uuid_text timestamptz_text chrono_row)
      = Some chrono_item
    ∧ (∀ i k, FeedScreen.keyExtractor custom_item i = FeedScreen.keyExtractor chrono_item k)
    ∧ FeedScreen.PostItem to_text custom_item = Items.shown (Sql.pick_media db (post_id p))
    ∧ FeedScreen.PostItem to_text chrono_item
      = Items.shown (head (filter (λ m, media_post_id m = post_id p) (media db)))
    ∧ ((length (filter (λ m, media_post_id m = post_id p) (media db)) ≤ 1)%nat →
       FeedScreen.PostItem to_text custom_item = FeedScreen.PostItem to_text chrono_item).
Proof.
  intros custom_row chrono_row.
  exists (Items.of_custom uuid_text timestamptz_text custom_row),
         (Items.of_chronological uuid_text timestamptz_text chrono_row).
  assert (Hb : Sql.base j = p ∧ Sql.media_one j = Sql.pick_media db (post_id p)).
  { unfold Sql.join_post in Hj. destruct (Sql.recency now (created_at p)); [|discriminate].
    simpl in Hj. by injection Hj as <-. }
  destruct Hb as [Hb Hm].
  split; [apply mapRow_custom|]. split; [apply mapRow_chronological|].
  split; [|split; [|split]].
  - intros i k. unfold FeedScreen.keyExtractor. simpl. by rewrite Hb.
  - rewrite shown_custom. simpl. by rewrite Hm.
  - by rewrite shown_chronological.
  - intros Hone. rewrite shown_custom, shown_chronological. simpl.
    by rewrite Hm, pick_media_single.
Qed.

End Rendering.

Lemma rendering_of_served_rows_witness :
  let p := {| post_id := 2; author_id := 21; text_content := None;
              created_at := Sample.evaluation_instant - 2 * Sample.one_hour |} in
  ∃ j item,
    Sql.join_post Scenario.with_media Sample.evaluation_instant 7%N p = Some j
    ∧ FeedScreen.mapRow (Wire.chrono_row_json Scenario.uuid_text Scenario.timestamptz_text
                           (embed_media Scenario.with_media p)) = Some item
    ∧ FeedScreen.PostItem (λ _, "") item
      = FeedScreen.VideoPlayer "https://stream.mux.com/abc123.m3u8"
    ∧ FeedScreen.PostItem (λ _, "")
        (Items.of_custom Scenario.uuid_text Scenario.timestamptz_text
           (Sql.select_row Sql.default_weights j))
      = FeedScreen.VideoPlayer "https://stream.mux.com/abc123.m3u8".
Proof.
  intros p.
  assert (Hj : ∃ j, Sql.join_post Scenario.with_media Sample.evaluation_instant 7%N p
                    = Some j) by (eexists; vm_compute; reflexivity).
  destruct Hj as [j Hj].
  destruct (rendering_of_served_rows Scenario.uuid_text Scenario.timestamptz_text (λ _, "")
              Scenario.with_media Sample.evaluation_instant 7%N Sql.default_weights p j Hj)
    as (ci & hi & Hc & Hh & _ & Hshown & Hshown' & _).
  exists j, hi. split; [exact Hj|]. split; [exact Hh|].
  rewrite mapRow_custom in Hc. injection Hc as <-.
  split; [rewrite Hshown' | rewrite Hshown]; vm_compute; reflexivity.
Defined.

(** * One call of [fetchPage] against the handler *)

Section Fetch.

Variable uuid_text : N → string.
Variable timestamptz_text : Z → string.

Lemma failure_is_not_ok (w : world) (req : request) (r : response)
    (e : string) (details : option string) (upstream : option Z) :
  result (handler w req) = Responded r → payload r = Failure e details upstream →
  http_ok (status r) = false.
Proof.
  intros Hr Hp.
  destruct (get_user w (default "" (authorization req))) as [userId|] eqn:Hu.
  2:{ rewrite (handler_without_user w req Hu) in Hr. by injection Hr as <-. }
  pose proof (handler_unfold w req userId Hu) as H. cbv zeta in H.
  destruct (exec _) as [s| |].
  - destruct H as [H _]. rewrite H in Hr. injection Hr as <-.
    pose proof (run_strategy_classes w s userId (page_window req).1 (page_window req).2
                  (default "" (authorization req)) (result (read_preferences w userId))) as Hc.
    cbv zeta in Hc. rewrite Hp in Hc.
    destruct s; [by destruct Hc as (-> & _) | | by destruct Hc as (-> & _)].
    by destruct Hc as [[-> _]|[(-> & _)|[-> _]]].
  - destruct H as [H _]. congruence.
  - destruct H as [H _]. rewrite H in Hr. by injection Hr as <-.
Qed.

Lemma page_is_ok (w : world) (req : request) (r : response)
    (posts : posts_payload) (tag : string) :
  result (handler w req) = Responded r → payload r = Page posts tag → status r = 200.
Proof.
  intros Hr Hp.
  destruct (get_user w (default "" (authorization req))) as [userId|] eqn:Hu.
  2:{ rewrite (handler_without_user w req Hu) in Hr. injection Hr as <-. discriminate. }
  pose proof (handler_unfold w req userId Hu) as H. cbv zeta in H.
  destruct (exec _) as [s| |].
  - destruct H as [H _]. rewrite H in Hr. injection Hr as <-.
    pose proof (run_strategy_classes w s userId (page_window req).1 (page_window req).2
                  (default "" (authorization req)) (result (read_preferences w userId))) as Hc.
    cbv zeta in Hc. rewrite Hp in Hc. by destruct Hc as (-> & _).
  - destruct H as [H _]. congruence.
  - destruct H as [H _]. rewrite H in Hr. injection Hr as <-. discriminate.
Qed.


End Fetch.


(** * The settings screen against the server *)

Section Preferences.

Lemma assoc_set_property (key k : string) (v : json) (o : list (string * json)) :
  assoc k (Settings.set_property key v o)
  = if String.eqb key k then Some v else assoc k o.
Proof.
  induction o as [|[k0 x] rest IH]; simpl.
  - done.
  - destruct (String.eqb k0 key) eqn:E0; simpl.
    + apply String.eqb_eq in E0 as ->. by destruct (String.eqb key k).
    + rewrite IH. destruct (String.eqb k0 k) eqn:E1; [|done].
      apply String.eqb_eq in E1 as ->. by rewrite String.eqb_sym, E0.
Qed.

Lemma assoc_None_not_elem (k : string) (b : list (string * json)) :
  k ∉ b.*1 → assoc k b = None.
Proof.
  induction b as [|[k0 x] rest IH]; [done|]. intros Hn.
  rewrite fmap_cons in Hn. apply not_elem_of_cons in Hn as [Hne Hn]. simpl in *.
  destruct (String.eqb k0 k) eqn:E; [|by apply IH].
  apply String.eqb_eq in E. congruence.
Qed.

Lemma assoc_spread (a b : list (string * json)) (k : string) :
  NoDup b.*1 →
  assoc k (Settings.spread a b)
  = match assoc k b with Some v => Some v | None => assoc k a end.
Proof.
  unfold Settings.spread. revert a.
  induction b as [|[k0 x] rest IH]; intros a Hnd; [done|].
  simpl in *. apply NoDup_cons in Hnd as [Hk0 Hnd].
  rewrite (IH _ Hnd), assoc_set_property.
  destruct (String.eqb k0 k) eqn:E.
  - apply String.eqb_eq in E as ->. by rewrite (assoc_None_not_elem k rest Hk0).
  - done.
Qed.

(** X16: [load] puts the stored record over the defaults key by key: a
    key the record holds takes the stored value, whatever it is, and any
    other key takes its default, so the five default keys are always set
    afterwards; a failed read leaves the screen's preferences as they
    were. *)
Theorem load_merges_over_defaults (answer : query_result (option json))
    (prefs : list (string * json)) :
  match answer with
  | QueryError _ => Settings.load answer prefs = prefs
  | QueryData row =>
      let stored := match row with Some p => Settings.own_properties p | None => [] end in
      NoDup stored.*1 →
      (∀ key, assoc key (Settings.load answer prefs)
              = match assoc key stored with
                | Some v => Some v
                | None => assoc key Settings.defaultPrefs
                end)
      ∧ ∀ key, key ∈ Settings.defaultPrefs.*1 →
               is_Some (assoc key (Settings.load answer prefs))
  end.
Proof.
  destruct answer as [row|e]; [|reflexivity].
  intros stored Hnd.
  assert (Hlook : ∀ key, assoc key (Settings.load (QueryData row) prefs)
                         = match assoc key stored with
                           | Some v => Some v
                           | None => assoc key Settings.defaultPrefs
                           end).
  { intros key. unfold Settings.load. fold stored. by apply assoc_spread. }
  split; [exact Hlook|].
  intros key Hkey. rewrite Hlook. destruct (assoc key stored); [by eexists|].
  simpl in Hkey.
  repeat (apply elem_of_cons in Hkey as [->|Hkey]; [by eexists|]).
  by apply elem_of_nil in Hkey.
Qed.

Lemma load_merges_over_defaults_witness :
  let prefs := Settings.load
                 (QueryData (Some (JObject [("like_weight", JNumber 3);
                                            ("third_party_endpoint", JNull)])))
                 Settings.defaultPrefs in
  assoc "like_weight" prefs = Some (JNumber 3)
  ∧ assoc "algorithm_id" prefs = Some (JString "custom")
  ∧ assoc "third_party_endpoint" prefs = Some JNull.
Proof.
  intros prefs.
  destruct (load_merges_over_defaults
              (QueryData (Some (JObject [("like_weight", JNumber 3);
                                         ("third_party_endpoint", JNull)])))
              Settings.defaultPrefs) as [Hlook _].
  - apply (bool_decide_unpack _). vm_compute. exact I.
  - subst prefs. rewrite !Hlook. repeat split.
Defined.

(** X17: what [save] stores is what the next [load] shows, key by key,
    provided the saved preferences hold the five default keys, as they do
    after any [load]; the records of other users are not touched. *)
Theorem save_then_load (db : database) (user : uuid) (prefs before : list (string * json))
    (Hkeys : NoDup prefs.*1)
    (Hfull : ∀ key, key ∈ Settings.defaultPrefs.*1 → is_Some (assoc key prefs)) :
  (∀ key, assoc key (Settings.load (Settings.read_own (Settings.save db user prefs) user)
                       before)
          = assoc key prefs)
  ∧ ∀ other, other ≠ user →
      Settings.read_own (Settings.save db user prefs) other = Settings.read_own db other.
Proof.
  split.
  - intros key. unfold Settings.read_own, Settings.save. simpl.
    rewrite lookup_insert_eq. unfold Settings.load. simpl.
    rewrite assoc_spread by done.
    destruct (assoc key prefs) as [v|] eqn:E; [done|].
    destruct (assoc key Settings.defaultPrefs) as [d|] eqn:Ed; [|done].
    assert (Hin : key ∈ Settings.defaultPrefs.*1).
    { destruct (decide (key ∈ Settings.defaultPrefs.*1)) as [|Hn]; [done|].
      apply assoc_None_not_elem in Hn. congruence. }
    destruct (Hfull key Hin) as [v Hv]. congruence.
  - intros other Hne. unfold Settings.read_own, Settings.save. simpl.
    by rewrite lookup_insert_ne.
Qed.

Lemma save_then_load_witness :
  let edited := Settings.set_property "like_weight" (JNumber 4)
                  (Settings.set_property "third_party_endpoint" (JString "https://x.example/")
                     Settings.defaultPrefs) in
  let shown := Settings.load
                 (Settings.read_own (Settings.save Sample.two_posts 7 edited) 7)
                 Settings.defaultPrefs in
  assoc "like_weight" shown = Some (JNumber 4)
  ∧ assoc "third_party_endpoint" shown = Some (JString "https://x.example/").
Proof.
  intros edited shown.
  destruct (save_then_load Sample.two_posts 7%N edited Settings.defaultPrefs) as [Hlook _].
  - apply (bool_decide_unpack _). vm_compute. exact I.
  - intros key Hkey. simpl in Hkey.
    repeat (apply elem_of_cons in Hkey as [->|Hkey]; [by eexists|]).
    by apply elem_of_nil in Hkey.
  - subst shown. rewrite !Hlook. split; reflexivity.
Defined.

(** X18: once saved, the preferences are what the server acts on: the
    handler dispatches on the saved [algorithm_id] and the ranking
    function loads every weight saved as a number; in particular a user
    with no record is served chronologically, and after opening the
    settings screen and saving its untouched defaults is served by the
    custom strategy, with the weights 1, 0.5, 1 and 1. *)
Theorem saved_preferences_reach_the_server (w : world) (user : uuid)
    (prefs : list (string * json))
    (Hread : preferences_fault w = None) :
  let w' := Settings.saved w user prefs in
  (∀ a, assoc "algorithm_id" prefs = Some (JString a) →
        algorithm_id w' (result (read_preferences w' user)) = a)
  ∧ (∀ key q, key ∈ ["like_weight"; "comment_weight"; "follower_weight"; "recency_weight"] →
       assoc key prefs = Some (JNumber q) →
       Sql.weight_named (Sql.load_weights (numeric_in w') (store w') user) key = Some q)
  ∧ (user_feed_preferences (store w) !! user = None →
     let fresh := Settings.load (Settings.read_own (store w) user) Settings.defaultPrefs in
     let w'' := Settings.saved w user fresh in
     algorithm_id w (result (read_preferences w user)) = "chronological"
     ∧ algorithm_id w'' (result (read_preferences w'' user)) = "custom"
     ∧ Sql.load_weights (numeric_in w'') (store w'') user = Sql.default_weights).
Proof.
  intros w'.
  assert (Hrec : ∀ p, result (read_preferences (Settings.saved w user p) user) = JObject p).
  { intros p. unfold read_preferences, Settings.saved, Settings.save. simpl.
    rewrite Hread. simpl. by rewrite lookup_insert_eq. }
  split; [|split].
  - intros a Ha. subst w'. rewrite Hrec. unfold algorithm_id. simpl. by rewrite Ha.
  - intros key q Hkey Hq. subst w'. unfold Sql.load_weights, Settings.saved, Settings.save.
    simpl. rewrite lookup_insert_eq.
    assert (Hw : Sql.assign_weight (numeric_in w) (JObject prefs) key
                 = λ _, q).
    { unfold Sql.assign_weight, Sql.text_field_as_numeric. simpl. by rewrite Hq. }
    unfold Sql.weight_named.
    repeat (apply elem_of_cons in Hkey as [->|Hkey]; [simpl; by rewrite Hw|]).
    by apply elem_of_nil in Hkey.
  - intros Hnone fresh w''.
    assert (Hfresh : fresh = Settings.defaultPrefs).
    { subst fresh. unfold Settings.read_own. by rewrite Hnone. }
    split; [|split].
    + unfold read_preferences. rewrite Hread, Hnone. reflexivity.
    + subst w''. rewrite Hrec, Hfresh. reflexivity.
    + subst w''. unfold Sql.load_weights, Settings.saved, Settings.save. simpl.
      rewrite lookup_insert_eq, Hfresh. reflexivity.
Qed.

Lemma saved_preferences_reach_the_server_witness :
  let w := Sample.world_of Sample.two_posts FetchRejects in
  let w'' := Settings.saved w 7 (Settings.load (Settings.read_own (store w) 7)
                                    Settings.defaultPrefs) in
  (∃ rows, result (handler w (Sample.get_request [] None))
           = Responded (json_response (Page (ChronoRows rows) "chronological") 200))
  ∧ (∃ rows, result (handler w'' (Sample.get_request [] None))
             = Responded (json_response (Page (CustomRows rows) "custom") 200))
  ∧ algorithm_id w'' (result (read_preferences w'' 7%N)) = "custom".
Proof.
  intros w w''.
  destruct (saved_preferences_reach_the_server w 7%N Settings.defaultPrefs eq_refl)
    as (_ & _ & Hfresh).
  destruct (Hfresh eq_refl) as (_ & Hcustom & _).
  split; [eexists; vm_compute; reflexivity|].
  split; [eexists; vm_compute; reflexivity|]. exact Hcustom.
Defined.

End Preferences.

(** * The root layout *)

(** X19: while the session is loading the gate redirects nowhere; once
    it is loaded, one run of the gate settles the route: a visitor without
    a session ends in the [(auth)] group, a visitor with one ends outside
    it, and a second run asks for no further redirect. *)
Theorem gate_settles (isLoggedIn : bool) (segments : list string) :
  Layout.AuthGate isLoggedIn true segments = None
  ∧ let settled := Layout.after_gate isLoggedIn false segments in
    Layout.AuthGate isLoggedIn false settled = None
    ∧ (isLoggedIn = false ↔ head settled = Some "(auth)").
Proof.
  split; [reflexivity|]. cbv zeta.
  unfold Layout.after_gate, Layout.AuthGate.
  destruct isLoggedIn; simpl;
    destruct (bool_decide (head segments = Some "(auth)")) eqn:E; simpl.
  - split; [reflexivity|]. split; [discriminate|]. discriminate.
  - rewrite E. simpl. split; [reflexivity|]. split; [discriminate|].
    intros H. apply bool_decide_eq_false in E. contradiction.
  - rewrite E. simpl. apply bool_decide_eq_true in E. done.
  - done.
Qed.

(** * Row level security, as the test script meets it *)

Section Policies.

Lemma forallb_update_text (uid postId : uuid) (text : string) (rows : list post) :
  forallb (λ r, negb (Rls.posts_update_own uid r && N.eqb (post_id r) postId)
                || Rls.posts_update_own uid (Rls.set_text_content text r)) rows = true.
Proof.
  apply forallb_forall. intros r _. unfold Rls.posts_update_own. simpl.
  destruct (N.eqb (author_id r) uid); [by rewrite orb_true_r | done].
Qed.

(** X20: under [posts_update_own] the update of [tryUpdatePost] never
    reports an error: it rewrites the text of the caller's own post with
    that id and nothing else, and for a post of someone else it changes
    no row at all, silently; so the first check of the script's [main],
    which expects an error from the update of another user's post, throws
    "RLS FAILED" whatever the store holds. *)
Theorem update_of_foreign_post_is_silent (db : database) (uid postId : uuid) (text : string) :
  Rls.tryUpdatePost db uid postId text
  = (None, (λ p, if N.eqb (author_id p) uid && N.eqb (post_id p) postId
                 then Rls.set_text_content text p else p) <$> posts db)
  ∧ (Forall (λ p, post_id p = postId → author_id p ≠ uid) (posts db) →
     Rls.tryUpdatePost db uid postId text = (None, posts db))
  ∧ ∀ aPostId,
      Rls.main_checks db uid aPostId postId
      = Rls.Thrown "RLS FAILED: User A updated User B post".
Proof.
  assert (Hupd : Rls.tryUpdatePost db uid postId text
                 = (None, (λ p, if N.eqb (author_id p) uid && N.eqb (post_id p) postId
                                then Rls.set_text_content text p else p) <$> posts db)).
  { unfold Rls.tryUpdatePost, Rls.update_under_policy. cbv zeta.
    by rewrite forallb_update_text. }
  split; [exact Hupd|]. split.
  - intros Hforeign. rewrite Hupd. f_equal.
    rewrite <- (list_fmap_id (posts db)) at 2. apply Forall_fmap_ext_1.
    eapply Forall_impl; [exact Hforeign|]. intros p Hp. simpl in *.
    destruct (N.eqb (author_id p) uid) eqn:Ea; [|done].
    destruct (N.eqb (post_id p) postId) eqn:Ep; [|done].
    apply N.eqb_eq in Ea, Ep. exfalso. by apply Hp.
  - intros aPostId. unfold Rls.main_checks, Rls.tryUpdatePost, Rls.update_under_policy.
    cbv zeta. by rewrite forallb_update_text.
Qed.

Lemma update_of_foreign_post_is_silent_witness :
  Rls.tryUpdatePost Sample.two_posts 20 2 "Updated by Alice (should fail)"
  = (None, posts Sample.two_posts)
  ∧ snd (Rls.tryUpdatePost Sample.two_posts 20 1 "Updated by Alice")
    = [ {| post_id := 2; author_id := 21; text_content := Some "second";
           created_at := Sample.evaluation_instant |};
        {| post_id := 1; author_id := 20; text_content := Some "Updated by Alice";
           created_at := Sample.evaluation_instant - Sample.one_hour |} ].
Proof.
  split.
  - apply (proj1 (proj2 (update_of_foreign_post_is_silent _ _ _ _))).
    apply (bool_decide_unpack _). vm_compute. exact I.
  - rewrite (proj1 (update_of_foreign_post_is_silent _ _ _ _)). reflexivity.
Defined.

End Policies.

(** * The values a page window can take *)

Section Window.

Lemma digit_value_range (c : ascii) (d : Z) : digit_value c = Some d → 0 ≤ d ≤ 9.
Proof.
  unfold digit_value.
  destruct (N.leb 48 (N_of_ascii c) && N.leb (N_of_ascii c) 57) eqn:E; [|discriminate].
  apply andb_true_iff in E as [Hlo Hhi]. apply N.leb_le in Hlo, Hhi.
  intros [= <-]. lia.
Qed.

Lemma read_digits_nonneg (s : string) (acc : option Z) :
  (∀ a, acc = Some a → 0 ≤ a) → ∀ n, read_digits s acc = Some n → 0 ≤ n.
Proof.
  revert acc. induction s as [|c rest IH]; intros acc Hacc n; simpl.
  - apply Hacc.
  - destruct (digit_value c) as [d|] eqn:Ed; [|apply Hacc].
    apply IH. intros a [= <-]. apply digit_value_range in Ed.
    destruct acc as [a0|]; simpl; [specialize (Hacc a0 eq_refl)|]; lia.
Qed.

Lemma parseInt_whole (s : string) :
  parseInt s = NaN ∨ ∃ z, parseInt s = Num (inject_Z z).
Proof.
  unfold parseInt.
  destruct (match skip_white_space s with
            | String "-" rest => (true, rest)
            | String "+" rest => (false, rest)
            | _ => (false, skip_white_space s)
            end) as [negative digits].
  destruct (read_digits digits None); [right; by eexists | by left].
Qed.

Lemma math_max_zero (q : Q) : ∃ q', math_max (Num q) (Num 0) = Num q' ∧ (0 <= q')%Q.
Proof.
  unfold math_max. destruct (Qle_bool q 0) eqn:E.
  - exists 0%Q. split; [done|lra].
  - exists q. split; [done|].
    destruct (Qlt_le_dec q 0) as [Hlt|Hle]; [|done].
    assert (Hq : Qle_bool q 0 = true) by (apply Qle_bool_iff; lra). congruence.
Qed.

Lemma math_max_zero_whole (z : Z) :
  math_max (Num (inject_Z z)) (Num 0) = Num (inject_Z (Z.max z 0)).
Proof.
  unfold math_max. destruct (Qle_bool (inject_Z z) 0) eqn:E.
  - apply Qle_bool_iff in E. change 0%Q with (inject_Z 0) in E. rewrite <- Zle_Qle in E.
    by rewrite Z.max_r.
  - destruct (Z_le_gt_dec z 0) as [Hle|Hgt]; [|by rewrite Z.max_l by lia].
    assert (Hq : Qle_bool (inject_Z z) 0 = true).
    { apply Qle_bool_iff. change 0%Q with (inject_Z 0). by rewrite <- Zle_Qle. }
    congruence.
Qed.



End Window.
